(** * ems-express: the employee CRUD service of [app.js]

    A shallow embedding of the seven-field employee resource: the
    express-validator rule chains of the create and update routes, the
    mongoose schema with its String casts and required checks, the
    collection as a finite map keyed by [_id], and the six route handlers
    as state-passing functions over that collection. *)

From Stdlib Require Import ZArith NArith Ascii String List Bool Lia.
From stdpp Require Import base option strings gmap list fin_maps.

Local Open Scope string_scope.
Local Open Scope list_scope.

(** ** JSON values of a request body

    A property of [req.body] is absent ([undefined]) or holds a JSON
    scalar; arrays and nested objects are left out.  [JNum n] is an
    integer-valued number that JSON carries exactly ([safe_integer] below),
    which [String(n)] prints in plain decimal. *)

Inductive jsval : Type :=
| JUndefined
| JNull
| JBool (b : bool)
| JNum (n : Z)
| JStr (s : string).

Definition jsval_eqb (a b : jsval) : bool :=
  match a, b with
  | JUndefined, JUndefined => true
  | JNull, JNull => true
  | JBool x, JBool y => Bool.eqb x y
  | JNum x, JNum y => Z.eqb x y
  | JStr x, JStr y => String.eqb x y
  | _, _ => false
  end.

(** [Number.isSafeInteger]: magnitude at most 2^53 - 1. *)
Definition safe_integer (n : Z) : bool :=
  (Z.abs n <=? 9007199254740991)%Z.

(** [req.body.k]: a missing key reads as [undefined]. *)
Definition prop (b : gmap string jsval) (k : string) : jsval :=
  default JUndefined (b !! k).

(** ** Number to text *)

Definition digit_char (d : N) : ascii := ascii_of_N (48 + d).

Fixpoint dec_digits (fuel : nat) (n : N) (acc : string) : string :=
  match fuel with
  | O => acc
  | S f =>
      let acc' := String (digit_char (n mod 10)) acc in
      if (n <? 10)%N then acc' else dec_digits f (n / 10) acc'
  end.

Definition N_toString (n : N) : string :=
  dec_digits (S (N.to_nat (N.size n))) n EmptyString.

(** [String(n)] / [n.toString()] on an integer-valued number. *)
Definition Number_toString (z : Z) : string :=
  match z with
  | Z0 => "0"
  | Zpos p => N_toString (Npos p)
  | Zneg p => String "-" (N_toString (Npos p))
  end.

(** express-validator's [toString], applied to a value before every
    standard (validator.js) check. *)
Definition toString (v : jsval) : string :=
  match v with
  | JUndefined | JNull => EmptyString
  | JBool true => "true"
  | JBool false => "false"
  | JNum n => Number_toString n
  | JStr s => s
  end.

(** ** validator.js predicates *)

Definition is_digit (c : ascii) : bool :=
  (48 <=? N_of_ascii c)%N && (N_of_ascii c <=? 57)%N.

Definition is_sign (c : ascii) : bool :=
  Ascii.eqb c "+" || Ascii.eqb c "-".

Fixpoint all_digits (s : string) : bool :=
  match s with
  | EmptyString => true
  | String c r => is_digit c && all_digits r
  end.

(** [[0-9]+] on the whole string. *)
Definition digits1 (s : string) : bool :=
  match s with
  | EmptyString => false
  | String _ _ => all_digits s
  end.

(** Drop one leading [+] or [-]: the [[+-]?] prefix of both regexes. *)
Definition strip_sign (s : string) : string :=
  match s with
  | String c r => if is_sign c then r else s
  | EmptyString => EmptyString
  end.

(** Remainder of [s] after its longest prefix of digits. *)
Fixpoint skip_digits (s : string) : string :=
  match s with
  | String c r => if is_digit c then skip_digits r else s
  | EmptyString => EmptyString
  end.

(** [isEmpty]: [str.length === 0]. *)
Definition isEmpty (s : string) : bool :=
  match s with
  | EmptyString => true
  | String _ _ => false
  end.

(** [isNumeric]: [/^[+-]?([0-9]*[.])?[0-9]+$/]. *)
Definition isNumeric (s : string) : bool :=
  let u := strip_sign s in
  match skip_digits u with
  | EmptyString => digits1 u
  | String c r => Ascii.eqb c "." && digits1 r
  end.

(** Value of a string of decimal digits, most significant first. *)
Fixpoint digits_value (acc : N) (s : string) : N :=
  match s with
  | EmptyString => acc
  | String c r => digits_value (acc * 10 + (N_of_ascii c - 48))%N r
  end.

(** [Number(str)] on a string of the shape [[-+]?[0-9]+]. *)
Definition Number_of_int (s : string) : Z :=
  match s with
  | String c r =>
      if Ascii.eqb c "-" then (- Z.of_N (digits_value 0 r))%Z
      else if Ascii.eqb c "+" then Z.of_N (digits_value 0 r)
      else Z.of_N (digits_value 0 s)
  | EmptyString => 0%Z
  end.

(** [isInt(str, { min: 0 })]: [/^[-+]?[0-9]+$/.test(str) && str >= 0]. *)
Definition isInt_min0 (s : string) : bool :=
  digits1 (strip_sign s) && (0 <=? Number_of_int s)%Z.

(** [typeof value === 'string']. *)
Definition is_string (v : jsval) : bool :=
  match v with
  | JStr _ => true
  | _ => false
  end.

(** ** express-validator chains *)

Inductive validator : Type :=
| Custom (f : jsval -> bool)
| Standard (f : string -> bool).

Record chain_item : Type := ChainItem {
  check : validator;
  negated : bool;
  message : string
}.

Record chain : Type := Chain {
  path : string;
  items : list chain_item
}.

Record verror : Type := VError {
  err_value : jsval;
  err_msg : string;
  err_path : string
}.

Definition body (field : string) : chain := Chain field [].

Definition addItem (v : validator) (neg : bool) (c : chain) : chain :=
  Chain (path c) (items c ++ [ChainItem v neg "Invalid value"]).

Fixpoint set_last_message (m : string) (l : list chain_item) : list chain_item :=
  match l with
  | [] => []
  | [it] => [ChainItem (check it) (negated it) m]
  | it :: r => it :: set_last_message m r
  end.

Definition withMessage (m : string) (c : chain) : chain :=
  Chain (path c) (set_last_message m (items c)).

Definition isString (c : chain) : chain := addItem (Custom is_string) false c.
Definition notEmpty (c : chain) : chain := addItem (Standard isEmpty) true c.
Definition isNumeric_ (c : chain) : chain := addItem (Standard isNumeric) false c.
Definition isInt_ (c : chain) : chain := addItem (Standard isInt_min0) false c.

Notation "c '|>' f" := (f c) (at level 45, left associativity, only parsing).

(** One validator of a chain on the field's value: custom validators see
    the raw value, standard ones its [toString]; a failure is a falsy
    result, or a truthy one when the item is negated. *)
Definition item_fails (it : chain_item) (v : jsval) : bool :=
  let r := match check it with
           | Custom f => f v
           | Standard f => f (toString v)
           end in
  if negated it then r else negb r.

Definition run_item (p : string) (v : jsval) (errs : list verror)
    (it : chain_item) : list verror :=
  if item_fails it v then errs ++ [VError v (message it) p] else errs.

(** A chain used as middleware: every item runs, each failure is pushed
    onto the request's error list. *)
Definition run_chain (b : gmap string jsval) (errs : list verror)
    (c : chain) : list verror :=
  fold_left (run_item (path c) (prop b (path c))) (items c) errs.

(** [validationResult(req).array()] after the route's chains have run. *)
Definition validationResult (rules : list chain) (b : gmap string jsval)
    : list verror :=
  fold_left (run_chain b) rules [].

(** ** The mongoose schema and documents *)

Inductive schema_type : Type := SString.

Record schema_path : Type := SchemaPath {
  sp_name : string;
  sp_type : schema_type;
  sp_required : bool
}.

Definition employeeSchema : list schema_path :=
  [ SchemaPath "emp_name" SString true;
    SchemaPath "emp_email" SString true;
    SchemaPath "emp_salary" SString true;
    SchemaPath "experience" SString true;
    SchemaPath "dept_code" SString true;
    SchemaPath "joining_date" SString true;
    SchemaPath "secrete_code" SString true ].

(** The seven schema paths of one document. *)
Record paths : Type := Paths {
  emp_name : jsval;
  emp_email : jsval;
  emp_salary : jsval;
  experience : jsval;
  dept_code : jsval;
  joining_date : jsval;
  secrete_code : jsval
}.

(** A document as the handlers see it and as it is serialised. *)
Record document : Type := Document {
  _id : string;
  doc : paths
}.

Definition no_paths : paths :=
  Paths JUndefined JUndefined JUndefined JUndefined JUndefined JUndefined
        JUndefined.

Definition get_path (k : string) (p : paths) : jsval :=
  if String.eqb k "emp_name" then emp_name p
  else if String.eqb k "emp_email" then emp_email p
  else if String.eqb k "emp_salary" then emp_salary p
  else if String.eqb k "experience" then experience p
  else if String.eqb k "dept_code" then dept_code p
  else if String.eqb k "joining_date" then joining_date p
  else if String.eqb k "secrete_code" then secrete_code p
  else JUndefined.

Definition set_path (k : string) (v : jsval) (p : paths) : paths :=
  if String.eqb k "emp_name" then
    Paths v (emp_email p) (emp_salary p) (experience p) (dept_code p)
          (joining_date p) (secrete_code p)
  else if String.eqb k "emp_email" then
    Paths (emp_name p) v (emp_salary p) (experience p) (dept_code p)
          (joining_date p) (secrete_code p)
  else if String.eqb k "emp_salary" then
    Paths (emp_name p) (emp_email p) v (experience p) (dept_code p)
          (joining_date p) (secrete_code p)
  else if String.eqb k "experience" then
    Paths (emp_name p) (emp_email p) (emp_salary p) v (dept_code p)
          (joining_date p) (secrete_code p)
  else if String.eqb k "dept_code" then
    Paths (emp_name p) (emp_email p) (emp_salary p) (experience p) v
          (joining_date p) (secrete_code p)
  else if String.eqb k "joining_date" then
    Paths (emp_name p) (emp_email p) (emp_salary p) (experience p)
          (dept_code p) v (secrete_code p)
  else if String.eqb k "secrete_code" then
    Paths (emp_name p) (emp_email p) (emp_salary p) (experience p)
          (dept_code p) (joining_date p) v
  else p.

(** mongoose's [castString]: [null] and [undefined] pass through, every
    other scalar becomes its [toString()]. *)
Definition castString (v : jsval) : jsval :=
  match v with
  | JUndefined => JUndefined
  | JNull => JNull
  | JBool true => JStr "true"
  | JBool false => JStr "false"
  | JNum n => JStr (Number_toString n)
  | JStr s => JStr s
  end.

Definition cast (t : schema_type) (v : jsval) : jsval :=
  match t with
  | SString => castString v
  end.

(** Assigning [doc.k = v]: the value is cast by the schema type of [k];
    a key outside the schema is dropped (strict mode). *)
Definition assign (k : string) (v : jsval) (p : paths) : paths :=
  match List.find (fun sp => String.eqb (sp_name sp) k) employeeSchema with
  | Some sp => set_path k (cast (sp_type sp) v) p
  | None => p
  end.

(** [new Employee(obj)]: every schema path is assigned from [obj]. *)
Definition new_Employee (id : string) (obj : paths) : document :=
  Document id
    (fold_left (fun p sp => assign (sp_name sp) (get_path (sp_name sp) obj) p)
       employeeSchema no_paths).

(** The [required] validator of a String path: a non-empty string. *)
Definition checkRequired (v : jsval) : bool :=
  match v with
  | JStr s => negb (isEmpty s)
  | _ => false
  end.

Definition missing_paths (p : paths) : list string :=
  sp_name <$>
    List.filter
      (fun sp => sp_required sp && negb (checkRequired (get_path (sp_name sp) p)))
      employeeSchema.

Fixpoint join (sep : string) (l : list string) : string :=
  match l with
  | [] => EmptyString
  | [x] => x
  | x :: r => x +:+ sep +:+ join sep r
  end.

Definition validation_error (missing : list string) : string :=
  "Employee validation failed: " +:+
  join ", " ((fun k => k +:+ ": Path `" +:+ k +:+ "` is required.") <$> missing).

(** ** Identifiers *)

Definition is_hex (c : ascii) : bool :=
  let n := N_of_ascii c in
  ((48 <=? n) && (n <=? 57) || (65 <=? n) && (n <=? 70)
   || (97 <=? n) && (n <=? 102))%N.

Definition to_lower (c : ascii) : ascii :=
  let n := N_of_ascii c in
  if ((65 <=? n) && (n <=? 90))%N then ascii_of_N (n + 32) else c.

Fixpoint lower (s : string) : string :=
  match s with
  | EmptyString => EmptyString
  | String c r => String (to_lower c) (lower r)
  end.

Fixpoint all_hex (s : string) : bool :=
  match s with
  | EmptyString => true
  | String c r => is_hex c && all_hex r
  end.

(** Casting a route parameter to an ObjectId: twenty-four hexadecimal
    digits, kept in the lower-case form [toHexString] prints. *)
Definition castObjectId (raw : string) : option string :=
  if (String.length raw =? 24)%nat && all_hex raw then Some (lower raw)
  else None.

Definition dquote : string := String "034"%char EmptyString.

Definition cast_error (raw : string) : string :=
  "Cast to ObjectId failed for value " +:+ dquote +:+ raw +:+ dquote +:+
  " (type string) at path " +:+ dquote +:+ "_id" +:+ dquote +:+
  " for model " +:+ dquote +:+ "Employee" +:+ dquote.

(** ** Regular expressions of the [$regex] query

    The patterns made of ordinary characters and [.] are matched here;
    every other pattern is left to the store's engine, a parameter of the
    service below. *)

Inductive atom : Type :=
| Lit (c : ascii)
| Dot.

Definition regex_special : string := "\^$|?*+()[]{}".

Fixpoint occurs (c : ascii) (s : string) : bool :=
  match s with
  | EmptyString => false
  | String x r => Ascii.eqb c x || occurs c r
  end.

Fixpoint parse_plain (pat : string) : option (list atom) :=
  match pat with
  | EmptyString => Some []
  | String c r =>
      if Ascii.eqb c "." then cons Dot <$> parse_plain r
      else if occurs c regex_special then None
      else cons (Lit c) <$> parse_plain r
  end.

(** One pattern atom against one character, under option [i]: letters
    match in either case ([to_lower] folds the ASCII letters), and [.]
    matches anything but a line feed. *)
Definition atom_matches (a : atom) (c : ascii) : bool :=
  match a with
  | Lit x => Ascii.eqb (to_lower x) (to_lower c)
  | Dot => negb (Ascii.eqb c "010"%char)
  end.

Fixpoint match_here (p : list atom) (s : string) : bool :=
  match p, s with
  | [], _ => true
  | a :: p', String c s' => atom_matches a c && match_here p' s'
  | _ :: _, EmptyString => false
  end.

(** Unanchored search: the pattern may start at any position. *)
Fixpoint regex_search (p : list atom) (s : string) : bool :=
  match_here p s ||
  match s with
  | String _ s' => regex_search p s'
  | EmptyString => false
  end.

(** ** The collection, the environment of a request, and responses *)

Inductive call : Type :=
| CallFind
| CallFindById
| CallSave
| CallDeleteOne.

(** The collection keyed by [_id], and the model calls issued so far. *)
Record world : Type := World {
  db : gmap string paths;
  calls : list call
}.

(** What a request cannot control: whether the store fails a call (with
    which error text) and the identifier a new document receives. *)
Record env : Type := Env {
  fault : call -> option string;
  fresh_id : string
}.

Inductive payload : Type :=
| PErrors (errors : list verror)
| PDoc (d : document)
| PDocs (ds : list document)
| PObject (key value : string).

Record response : Type := Response {
  status : nat;
  json : payload
}.

Inductive outcome (A : Type) : Type :=
| Resolved (a : A)
| Rejected (err : string).
Arguments Resolved {A} a.
Arguments Rejected {A} err.

(** A promise-returning computation over the world. *)
Definition io (A : Type) : Type := world -> outcome A * world.

Definition ret {A : Type} (a : A) : io A := fun w => (Resolved a, w).

Definition reject {A : Type} (err : string) : io A :=
  fun w => (Rejected err, w).

Definition bind {A B : Type} (m : io A) (k : A -> io B) : io B :=
  fun w =>
    match m w with
    | (Resolved a, w') => k a w'
    | (Rejected err, w') => (Rejected err, w')
    end.

Notation "'await' x <- m ; k" := (bind m (fun x => k))
  (at level 10, x name, m at level 100, k at level 200, only parsing).

(** [try { ... } catch (err) { ... }] around awaited calls, and
    [promise.catch(...)]: a rejection is turned into the handler's
    response. *)
Definition try_catch (m : io response) (h : string -> response)
    : world -> response * world :=
  fun w =>
    match m w with
    | (Resolved r, w') => (r, w')
    | (Rejected err, w') => (h err, w')
    end.

(** A promise that has handled its own rejection always resolves. *)
Definition settle (h : world -> response * world) : io response :=
  fun w => let (r, w') := h w in (Resolved r, w').

Definition record_call (c : call) : io unit :=
  fun w => (Resolved tt, World (db w) (calls w ++ [c])).

Definition round_trip (e : env) (c : call) : io unit :=
  match fault e c with
  | Some err => reject err
  | None => ret tt
  end.

Definition get_db : io (gmap string paths) := fun w => (Resolved (db w), w).

Definition put_db (m : gmap string paths) : io unit :=
  fun w => (Resolved tt, World m (calls w)).

Definition documents (m : gmap string paths) : list document :=
  (fun kv => Document (fst kv) (snd kv)) <$> map_to_list m.

(** [Employee.find()]. *)
Definition Employee_find (e : env) : io (list document) :=
  await _ <- record_call CallFind ;
  await _ <- round_trip e CallFind ;
  await m <- get_db ;
  ret (documents m).

(** [Employee.findById(raw)]: the cast of [raw] fails before any query. *)
Definition Employee_findById (e : env) (raw : string) : io (option document) :=
  await _ <- record_call CallFindById ;
  match castObjectId raw with
  | None => reject (cast_error raw)
  | Some k =>
      await _ <- round_trip e CallFindById ;
      await m <- get_db ;
      ret (Document k <$> m !! k)
  end.

(** [d.save()]: schema validation first, then an insert of a new document
    (the store refuses a duplicate [_id]) or an update of a stored one. *)
Definition save (e : env) (isNew : bool) (d : document) : io document :=
  await _ <- record_call CallSave ;
  match missing_paths (doc d) with
  | _ :: _ as missing => reject (validation_error missing)
  | [] =>
      await _ <- round_trip e CallSave ;
      await m <- get_db ;
      match m !! _id d, isNew with
      | Some _, true =>
          reject ("E11000 duplicate key error collection: crud_db.employees" +:+
                  " index: _id_ dup key: { _id: ObjectId('" +:+ _id d +:+ "') }")
      | None, false =>
          reject ("No document found for query " +:+ dquote +:+
                  "{ _id: new ObjectId('" +:+ _id d +:+ "') }" +:+ dquote +:+
                  " on model " +:+ dquote +:+ "Employee" +:+ dquote)
      | _, _ =>
          await _ <- put_db (<[_id d := doc d]> m) ;
          ret d
      end
  end.

(** [d.deleteOne()]. *)
Definition deleteOne (e : env) (d : document) : io unit :=
  await _ <- record_call CallDeleteOne ;
  await _ <- round_trip e CallDeleteOne ;
  await m <- get_db ;
  put_db (delete (_id d) m).

(** ** Sample library behaviours and data

    Simple instances of the service's three library parameters, and the
    request of the spec's scenario; the closed examples run on them. *)

Fixpoint after_at (s : string) : option string :=
  match s with
  | EmptyString => None
  | String c r => if Ascii.eqb c "@" then Some r else after_at r
  end.

(** [local@domain] with a non-empty local part and a dotted domain. *)
Definition email_shape (s : string) : bool :=
  match s with
  | EmptyString => false
  | String c _ =>
      negb (Ascii.eqb c "@") &&
      match after_at s with
      | Some d => negb (occurs "@" d) && occurs "." d
      | None => false
      end
  end.

(** [YYYY-MM-DD]. *)
Definition date_shape (s : string) : bool :=
  match s with
  | String y1 (String y2 (String y3 (String y4 (String h1
      (String m1 (String m2 (String h2 (String d1 (String d2 EmptyString))))))))) =>
      all_digits (String y1 (String y2 (String y3 (String y4
        (String m1 (String m2 (String d1 (String d2 EmptyString))))))))
      && Ascii.eqb h1 "-" && Ascii.eqb h2 "-"
  | _ => false
  end.

(** An engine that rejects every pattern beyond the plain ones. *)
Definition plain_only (pat : string) : option (string -> bool) := None.

Definition alice_body : gmap string jsval :=
  list_to_map
    [ ("emp_name", JStr "Alice Smith");
      ("emp_email", JStr "a@x.com");
      ("emp_salary", JStr "50000");
      ("experience", JNum 3);
      ("dept_code", JStr "ENG");
      ("joining_date", JStr "2024-01-15");
      ("secrete_code", JStr "abc") ].

(** A second body, with a numeric salary and a textual experience. *)
Definition bob_body : gmap string jsval :=
  list_to_map
    [ ("emp_name", JStr "Bob Stone");
      ("emp_email", JStr "bob@y.org");
      ("emp_salary", JNum 61000);
      ("experience", JStr "7");
      ("dept_code", JStr "OPS");
      ("joining_date", JStr "2023-11-02");
      ("secrete_code", JStr "xyz") ].

Definition bob_paths : paths :=
  Paths (JStr "Bob Stone") (JStr "bob@y.org") (JStr "61000") (JStr "7")
        (JStr "OPS") (JStr "2023-11-02") (JStr "xyz").

Definition alice_id : string := "65a4f0c2e7b1a93d5c8f0a11".

Definition alice_paths : paths :=
  Paths (JStr "Alice Smith") (JStr "a@x.com") (JStr "50000") (JStr "3")
        (JStr "ENG") (JStr "2024-01-15") (JStr "abc").

Definition empty_world : world := World ∅ [].

Definition alice_world : world := World {[ alice_id := alice_paths ]} [].

(** A store that answers every call, handing out [alice_id]. *)
Definition calm : env := Env (fun _ => None) alice_id.

(** A store that answers reads and refuses writes. *)
Definition read_only : env :=
  Env (fun c => match c with
                | CallSave => Some "not primary"
                | _ => None
                end) alice_id.

(** A store that cannot be reached. *)
Definition down : env := Env (fun _ => Some "connect ECONNREFUSED 127.0.0.1:27017") alice_id.

(** ** The service

    Three library behaviours are parameters: validator.js's email and
    ISO 8601 syntax checks on non-empty text, and the store's regular
    expression engine on patterns beyond the plain ones ([None] when it
    rejects the pattern). *)

Section Service.

Variable email_syntax : string -> bool.
Variable iso8601_syntax : string -> bool.
Variable pcre_extended : string -> option (string -> bool).

(** [isEmail] and [isISO8601] reject the empty string: it has no [@] and
    no four-digit year. *)
Definition isEmail (s : string) : bool := negb (isEmpty s) && email_syntax s.
Definition isISO8601 (s : string) : bool := negb (isEmpty s) && iso8601_syntax s.

Definition isEmail_ (c : chain) : chain := addItem (Standard isEmail) false c.
Definition isISO8601_ (c : chain) : chain := addItem (Standard isISO8601) false c.

(** The rule list of [app.post('/employees', ...)]. *)
Definition post_rules : list chain :=
  [ body "emp_name" |> isString |> withMessage "Employee name must be a string"
      |> notEmpty |> withMessage "Employee name is required";
    body "emp_email" |> isEmail_ |> withMessage "Invalid email format"
      |> notEmpty |> withMessage "Employee email is required";
    body "emp_salary" |> isNumeric_ |> withMessage "Salary must be a number"
      |> notEmpty |> withMessage "Employee salary is required";
    body "experience" |> isInt_
      |> withMessage "Experience must be a non-negative integer";
    body "dept_code" |> isString |> withMessage "Department code must be a string"
      |> notEmpty |> withMessage "Department code is required";
    body "joining_date" |> isISO8601_
      |> withMessage "Joining date must be a valid date in ISO8601 format";
    body "secrete_code" |> isString |> withMessage "Secret code must be a string"
      |> notEmpty |> withMessage "Secret code is required" ].

(** The rule list of [app.put('/employees/:id', ...)]. *)
Definition put_rules : list chain :=
  [ body "emp_name" |> isString |> withMessage "Employee name must be a string"
      |> notEmpty |> withMessage "Employee name is required";
    body "emp_email" |> isEmail_ |> withMessage "Invalid email format"
      |> notEmpty |> withMessage "Employee email is required";
    body "emp_salary" |> isNumeric_ |> withMessage "Salary must be a number"
      |> notEmpty |> withMessage "Employee salary is required";
    body "experience" |> isInt_
      |> withMessage "Experience must be a non-negative integer";
    body "dept_code" |> isString |> withMessage "Department code must be a string"
      |> notEmpty |> withMessage "Department code is required";
    body "joining_date" |> isISO8601_
      |> withMessage "Joining date must be a valid date in ISO8601 format";
    body "secrete_code" |> isString |> withMessage "Secret code must be a string"
      |> notEmpty |> withMessage "Secret code is required" ].

(** Compiling the [$regex] operand. *)
Definition regex_compile (pat : string) : option (string -> bool) :=
  match parse_plain pat with
  | Some p => Some (regex_search p)
  | None => pcre_extended pat
  end.

Definition regex_error (pat : string) : string :=
  "Regular expression is invalid: " +:+ pat.

(** [Employee.find({ emp_name: { $regex: pat, $options: 'i' } })]: only
    string values can match. *)
Definition Employee_find_regex (e : env) (pat : string) : io (list document) :=
  await _ <- record_call CallFind ;
  await _ <- round_trip e CallFind ;
  match regex_compile pat with
  | None => reject (regex_error pat)
  | Some matches =>
      await m <- get_db ;
      ret (List.filter
             (fun d => match emp_name (doc d) with
                       | JStr s => matches s
                       | _ => false
                       end)
             (documents m))
  end.

Definition body_paths (b : gmap string jsval) : paths :=
  {| emp_name := prop b "emp_name";
     emp_email := prop b "emp_email";
     emp_salary := prop b "emp_salary";
     experience := prop b "experience";
     dept_code := prop b "dept_code";
     joining_date := prop b "joining_date";
     secrete_code := prop b "secrete_code" |}.

(** POST /employees *)
Definition post_employees (e : env) (b : gmap string jsval)
    : world -> response * world :=
  fun w =>
    let errors := validationResult post_rules b in
    match errors with
    | _ :: _ => (Response 400 (PErrors errors), w)
    | [] =>
        let employee := new_Employee (fresh_id e) (body_paths b) in
        try_catch
          (await savedEmployee <- save e true employee ;
           ret (Response 201 (PDoc savedEmployee)))
          (fun err => Response 400 (PObject "message" err))
          w
    end.

(** GET /employees *)
Definition get_employees (e : env) : world -> response * world :=
  try_catch
    (await employees <- Employee_find e ;
     ret (Response 200 (PDocs employees)))
    (fun err => Response 500 (PObject "message" err)).

(** GET /employees/:id *)
Definition get_employee (e : env) (id : string) : world -> response * world :=
  try_catch
    (await employee <- Employee_findById e id ;
     match employee with
     | None => ret (Response 404 (PObject "message" "Employee not found"))
     | Some d => ret (Response 200 (PDoc d))
     end)
    (fun err => Response 500 (PObject "message" err)).

(** PUT /employees/:id *)
Definition put_employee (e : env) (id : string) (b : gmap string jsval)
    : world -> response * world :=
  fun w =>
    let errors := validationResult put_rules b in
    match errors with
    | _ :: _ => (Response 400 (PErrors errors), w)
    | [] =>
        try_catch
          (await employee <- Employee_findById e id ;
           match employee with
           | None => ret (Response 404 (PObject "message" "Employee not found"))
           | Some d =>
               let p := doc d in
               let p := assign "emp_name" (prop b "emp_name") p in
               let p := assign "emp_email" (prop b "emp_email") p in
               let p := assign "emp_salary" (prop b "emp_salary") p in
               let p := assign "experience" (prop b "experience") p in
               let p := assign "dept_code" (prop b "dept_code") p in
               let p := assign "joining_date" (prop b "joining_date") p in
               let p := assign "secrete_code" (prop b "secrete_code") p in
               await updatedEmployee <- save e false (Document (_id d) p) ;
               ret (Response 200 (PDoc updatedEmployee))
           end)
          (fun err => Response 400 (PObject "message" err))
          w
    end.

(** DELETE /employees/:id *)
Definition delete_employee (e : env) (id : string) : world -> response * world :=
  try_catch
    (await employee <- Employee_findById e id ;
     match employee with
     | None => ret (Response 404 (PObject "message" "Employee not found"))
     | Some d =>
         await _ <- deleteOne e d ;
         ret (Response 200 (PObject "message" "Employee deleted"))
     end)
    (fun err => Response 500 (PObject "message" err)).

(** GET /employees/search/:name: the query's promise carries its own
    [.catch]; the enclosing [try] sees no rejection of it. *)
Definition search_employees (e : env) (name : string)
    : world -> response * world :=
  try_catch
    (settle
       (try_catch
          (await employees <- Employee_find_regex e name ;
           match employees with
           | [] => ret (Response 404 (PObject "message" "No employees found"))
           | _ :: _ => ret (Response 200 (PDocs employees))
           end)
          (fun err => Response 500 (PObject "error" err))))
    (fun err => Response 500 (PObject "message" err)).

(** ** Requests and runs of the service *)

Inductive request : Type :=
| CreateEmployee (b : gmap string jsval)
| ListEmployees
| GetEmployee (id : string)
| UpdateEmployee (id : string) (b : gmap string jsval)
| DeleteEmployee (id : string)
| SearchEmployees (name : string).

Definition handle (e : env) (r : request) : world -> response * world :=
  match r with
  | CreateEmployee b => post_employees e b
  | ListEmployees => get_employees e
  | GetEmployee id => get_employee e id
  | UpdateEmployee id b => put_employee e id b
  | DeleteEmployee id => delete_employee e id
  | SearchEmployees name => search_employees e name
  end.

(** The world after serving the requests in turn, each in its own
    environment. *)
Fixpoint serve (reqs : list (env * request)) (w : world) : world :=
  match reqs with
  | [] => w
  | (e, r) :: rest => serve rest (snd (handle e r w))
  end.

(** ** Reference readings of the specification *)

(** The violations of one chain, listed declaratively: one entry per
    failing rule, in rule order. *)
Definition violations (b : gmap string jsval) (c : chain) : list verror :=
  flat_map
    (fun it =>
       if item_fails it (prop b (path c))
       then [VError (prop b (path c)) (message it) (path c)]
       else [])
    (items c).

Definition required_fields : list string :=
  [ "emp_name"; "emp_email"; "emp_salary"; "experience"; "dept_code";
    "joining_date"; "secrete_code" ].

Definition nonempty_text (v : jsval) : bool :=
  match v with
  | JStr s => negb (isEmpty s)
  | _ => false
  end.


(** [t] occurs in [s] as a contiguous run of characters. *)
Fixpoint is_substring (t s : string) : bool :=
  String.prefix t s ||
  match s with
  | String _ r => is_substring t r
  | EmptyString => false
  end.

(** The name contains the term as a substring, letter case ignored. *)
Definition name_contains (term name : string) : bool :=
  is_substring (lower term) (lower name).

Definition name_matches (term : string) (d : document) : bool :=
  match emp_name (doc d) with
  | JStr s => name_contains term s
  | _ => false
  end.

(** A search term free of regular-expression syntax. *)
Fixpoint literal_term (term : string) : bool :=
  match term with
  | EmptyString => true
  | String c r =>
      negb (Ascii.eqb c ".") && negb (occurs c regex_special) && literal_term r
  end.


(** The seven paths a request body is stored as. *)
Definition stored_paths (b : gmap string jsval) : paths :=
  {| emp_name := castString (prop b "emp_name");
     emp_email := castString (prop b "emp_email");
     emp_salary := castString (prop b "emp_salary");
     experience := castString (prop b "experience");
     dept_code := castString (prop b "dept_code");
     joining_date := castString (prop b "joining_date");
     secrete_code := castString (prop b "secrete_code") |}.

(** Every rule of the route holds of the body, field by field. *)
Record passes (b : gmap string jsval) : Prop := Passes {
  pass_name : exists s, prop b "emp_name" = JStr s /\ isEmpty s = false;
  pass_email : isEmail (toString (prop b "emp_email")) = true;
  pass_salary : isNumeric (toString (prop b "emp_salary")) = true;
  pass_salary_given : isEmpty (toString (prop b "emp_salary")) = false;
  pass_experience : isInt_min0 (toString (prop b "experience")) = true;
  pass_dept : exists s, prop b "dept_code" = JStr s /\ isEmpty s = false;
  pass_date : isISO8601 (toString (prop b "joining_date")) = true;
  pass_secret : exists s, prop b "secrete_code" = JStr s /\ isEmpty s = false
}.


(** ** Vocabulary for the routes taken together *)

(** The routes that only read. *)
Definition reads_only (r : request) : bool :=
  match r with
  | ListEmployees | GetEmployee _ | SearchEmployees _ => true
  | CreateEmployee _ | UpdateEmployee _ _ | DeleteEmployee _ => false
  end.

(** The [res.status(...)] values written in each route; [res.json] alone
    answers 200. *)
Definition statuses (r : request) : list nat :=
  match r with
  | CreateEmployee _ => [201; 400]
  | ListEmployees => [200; 500]
  | GetEmployee _ => [200; 404; 500]
  | UpdateEmployee _ _ => [200; 404; 400]
  | DeleteEmployee _ => [200; 404; 500]
  | SearchEmployees _ => [200; 404; 500]
  end.

(** * Properties *)

(** ** Printing and reading decimal numbers *)

Lemma digit_char_is_digit (d : N) :
  (d < 10)%N -> is_digit (digit_char d) = true.
Proof.
  intros Hd. unfold is_digit, digit_char.
  rewrite N_ascii_embedding by lia.
  apply andb_true_intro; split; apply N.leb_le; lia.
Qed.

Lemma digit_char_value (d : N) :
  (d < 10)%N -> (N_of_ascii (digit_char d) - 48 = d)%N.
Proof.
  intros Hd. unfold digit_char. rewrite N_ascii_embedding by lia. lia.
Qed.

Lemma dec_digits_all_digits (fuel : nat) :
  forall n acc, all_digits acc = true -> all_digits (dec_digits fuel n acc) = true.
Proof.
  induction fuel as [|f IH]; intros n acc Hacc; simpl; [exact Hacc|].
  assert (Hstep : all_digits (String (digit_char (n mod 10)) acc) = true).
  { simpl. rewrite digit_char_is_digit, Hacc; [reflexivity|].
    apply N.mod_lt. lia. }
  destruct (n <? 10)%N; [exact Hstep | apply IH, Hstep].
Qed.

Lemma dec_digits_nonempty (fuel : nat) :
  forall n acc, isEmpty acc = false -> isEmpty (dec_digits fuel n acc) = false.
Proof.
  induction fuel as [|f IH]; intros n acc Hacc; simpl; [exact Hacc|].
  destruct (n <? 10)%N; [reflexivity | apply IH; reflexivity].
Qed.

Lemma N_toString_digits1 (n : N) : digits1 (N_toString n) = true.
Proof.
  unfold N_toString.
  pose proof (dec_digits_all_digits (S (N.to_nat (N.size n))) n EmptyString eq_refl) as Hd.
  assert (Hne : isEmpty (dec_digits (S (N.to_nat (N.size n))) n EmptyString) = false).
  { simpl. destruct (n <? 10)%N; [reflexivity|].
    apply dec_digits_nonempty. reflexivity. }
  destruct (dec_digits _ n EmptyString); [discriminate Hne | exact Hd].
Qed.

Lemma digit_not_sign (c : ascii) : is_digit c = true -> is_sign c = false.
Proof.
  destruct c as [[] [] [] [] [] [] [] []]; vm_compute; congruence.
Qed.

Lemma digits1_strip_sign (s : string) : digits1 s = true -> strip_sign s = s.
Proof.
  destruct s as [|c r]; [reflexivity|]. simpl.
  intros H. apply andb_prop in H as [Hc _].
  rewrite (digit_not_sign c Hc). reflexivity.
Qed.

Lemma all_digits_skip (s : string) :
  all_digits s = true -> skip_digits s = EmptyString.
Proof.
  induction s as [|c r IH]; [reflexivity|]. simpl.
  intros H. apply andb_prop in H as [Hc Hr]. rewrite Hc. auto.
Qed.

Lemma digits1_all_digits (s : string) : digits1 s = true -> all_digits s = true.
Proof. destruct s; [discriminate | auto]. Qed.

Lemma isNumeric_digits (s : string) : digits1 s = true -> isNumeric s = true.
Proof.
  intros H. unfold isNumeric. rewrite (digits1_strip_sign s H).
  rewrite (all_digits_skip s (digits1_all_digits s H)). exact H.
Qed.

Lemma isNumeric_Number_toString (n : Z) : isNumeric (Number_toString n) = true.
Proof.
  destruct n as [|p|p]; simpl.
  - reflexivity.
  - apply isNumeric_digits, N_toString_digits1.
  - pose proof (N_toString_digits1 (Npos p)) as H.
    unfold isNumeric. simpl.
    rewrite (all_digits_skip _ (digits1_all_digits _ H)). exact H.
Qed.

Lemma Number_of_int_digits (s : string) :
  digits1 s = true -> Number_of_int s = Z.of_N (digits_value 0 s).
Proof.
  destruct s as [|c r]; [discriminate|]. simpl. intros H.
  apply andb_prop in H as [Hc _].
  pose proof (digit_not_sign c Hc) as Hs. unfold is_sign in Hs.
  apply orb_false_elim in Hs as [Hplus Hminus].
  rewrite Hminus, Hplus. reflexivity.
Qed.

Lemma isInt_min0_digits (s : string) : digits1 s = true -> isInt_min0 s = true.
Proof.
  intros H. unfold isInt_min0.
  rewrite (digits1_strip_sign s H), H, (Number_of_int_digits s H). simpl.
  apply Z.leb_le. lia.
Qed.

Lemma isInt_min0_Number_toString (n : Z) :
  (0 <= n)%Z -> isInt_min0 (Number_toString n) = true.
Proof.
  destruct n as [|p|p]; intros Hn.
  - reflexivity.
  - apply isInt_min0_digits, N_toString_digits1.
  - lia.
Qed.

(** Reading back the digits that [dec_digits] pushes in front of [acc]. *)
Lemma digits_value_dec_digits (fuel : nat) :
  forall n acc, (n < 10 ^ N.of_nat fuel)%N ->
  exists k, forall a,
    digits_value a (dec_digits fuel n acc) = digits_value (a * 10 ^ k + n)%N acc.
Proof.
  induction fuel as [|f IH]; intros n acc Hn.
  - exists 0%N. intros a. simpl in *. f_equal. lia.
  - simpl dec_digits. destruct (n <? 10)%N eqn:Hlt.
    + apply N.ltb_lt in Hlt. exists 1%N. intros a. simpl.
      rewrite digit_char_value by (apply N.mod_lt; lia).
      rewrite N.mod_small by exact Hlt. f_equal.
    + apply N.ltb_ge in Hlt.
      assert (Hq : (n / 10 < 10 ^ N.of_nat f)%N).
      { apply N.Div0.div_lt_upper_bound.
        rewrite Nat2N.inj_succ, N.pow_succ_r' in Hn. exact Hn. }
      destruct (IH (n / 10)%N (String (digit_char (n mod 10)) acc) Hq) as [k Hk].
      exists (N.succ k). intros a. rewrite Hk. simpl.
      rewrite digit_char_value by (apply N.mod_lt; lia).
      f_equal. rewrite N.pow_succ_r'.
      pose proof (N.div_mod n 10 ltac:(lia)). lia.
Qed.

Lemma digits_value_N_toString (n : N) : digits_value 0 (N_toString n) = n.
Proof.
  unfold N_toString.
  destruct (digits_value_dec_digits (S (N.to_nat (N.size n))) n EmptyString) as [k Hk].
  - rewrite Nat2N.inj_succ, N2Nat.id.
    apply N.lt_le_trans with (2 ^ N.size n)%N; [apply N.size_gt|].
    apply N.le_trans with (10 ^ N.size n)%N.
    + apply N.pow_le_mono_l. lia.
    + apply N.pow_le_mono_r; lia.
  - rewrite Hk. simpl. lia.
Qed.

Lemma isInt_min0_negative (n : Z) :
  (n < 0)%Z -> isInt_min0 (Number_toString n) = false.
Proof.
  destruct n as [|p|p]; intros Hn; try lia.
  unfold isInt_min0. simpl.
  rewrite digits_value_N_toString, N_toString_digits1. simpl.
  apply Z.leb_gt. lia.
Qed.

(** ** Validation *)

Lemma run_items_violations (p : string) (v : jsval) (l : list chain_item) :
  forall errs,
    fold_left (run_item p v) l errs =
    errs ++ flat_map (fun it => if item_fails it v
                                then [VError v (message it) p] else []) l.
Proof.
  induction l as [|it l IH]; intros errs; simpl.
  - symmetry. apply app_nil_r.
  - rewrite IH. unfold run_item.
    destruct (item_fails it v); [rewrite <- app_assoc|]; reflexivity.
Qed.

Lemma run_chain_violations (b : gmap string jsval) (c : chain) (errs : list verror) :
  run_chain b errs c = errs ++ violations b c.
Proof. apply run_items_violations. Qed.

Lemma run_chains_violations (b : gmap string jsval) (rules : list chain) :
  forall errs,
    fold_left (run_chain b) rules errs = errs ++ flat_map (violations b) rules.
Proof.
  induction rules as [|c rules IH]; intros errs; simpl.
  - symmetry. apply app_nil_r.
  - rewrite IH, run_chain_violations, <- app_assoc. reflexivity.
Qed.

Lemma validationResult_flat (rules : list chain) (b : gmap string jsval) :
  validationResult rules b = flat_map (violations b) rules.
Proof. unfold validationResult. apply run_chains_violations. Qed.

Lemma in_violations (b : gmap string jsval) (c : chain) (x : verror) :
  In x (violations b c) <->
  exists it, In it (items c) /\ item_fails it (prop b (path c)) = true /\
             x = VError (prop b (path c)) (message it) (path c).
Proof.
  unfold violations. rewrite in_flat_map. split.
  - intros (it & Hit & Hx). exists it.
    destruct (item_fails it (prop b (path c))); simpl in Hx.
    + destruct Hx as [Hx|[]]. auto.
    + destruct Hx.
  - intros (it & Hit & Hf & ->). exists it. rewrite Hf. simpl. auto.
Qed.

Lemma in_validationResult (rules : list chain) (b : gmap string jsval) (x : verror) :
  In x (validationResult rules b) <->
  exists c it, In c rules /\ In it (items c) /\
               item_fails it (prop b (path c)) = true /\
               x = VError (prop b (path c)) (message it) (path c).
Proof.
  rewrite validationResult_flat, in_flat_map. split.
  - intros (c & Hc & Hx). apply in_violations in Hx as (it & H1 & H2 & H3).
    exists c, it. auto.
  - intros (c & it & Hc & H1 & H2 & H3). exists c. split; [exact Hc|].
    apply in_violations. exists it. auto.
Qed.

(** The two rule lists are the same list. *)
Lemma put_rules_post_rules : put_rules = post_rules.
Proof. reflexivity. Qed.

Lemma post_rules_unfold (b : gmap string jsval) :
  validationResult post_rules b =
  (if negb (is_string (prop b "emp_name"))
   then [VError (prop b "emp_name") "Employee name must be a string" "emp_name"] else []) ++
  (if isEmpty (toString (prop b "emp_name"))
   then [VError (prop b "emp_name") "Employee name is required" "emp_name"] else []) ++
  (if negb (isEmail (toString (prop b "emp_email")))
   then [VError (prop b "emp_email") "Invalid email format" "emp_email"] else []) ++
  (if isEmpty (toString (prop b "emp_email"))
   then [VError (prop b "emp_email") "Employee email is required" "emp_email"] else []) ++
  (if negb (isNumeric (toString (prop b "emp_salary")))
   then [VError (prop b "emp_salary") "Salary must be a number" "emp_salary"] else []) ++
  (if isEmpty (toString (prop b "emp_salary"))
   then [VError (prop b "emp_salary") "Employee salary is required" "emp_salary"] else []) ++
  (if negb (isInt_min0 (toString (prop b "experience")))
   then [VError (prop b "experience") "Experience must be a non-negative integer" "experience"]
   else []) ++
  (if negb (is_string (prop b "dept_code"))
   then [VError (prop b "dept_code") "Department code must be a string" "dept_code"] else []) ++
  (if isEmpty (toString (prop b "dept_code"))
   then [VError (prop b "dept_code") "Department code is required" "dept_code"] else []) ++
  (if negb (isISO8601 (toString (prop b "joining_date")))
   then [VError (prop b "joining_date")
           "Joining date must be a valid date in ISO8601 format" "joining_date"] else []) ++
  (if negb (is_string (prop b "secrete_code"))
   then [VError (prop b "secrete_code") "Secret code must be a string" "secrete_code"] else []) ++
  (if isEmpty (toString (prop b "secrete_code"))
   then [VError (prop b "secrete_code") "Secret code is required" "secrete_code"] else []).
Proof.
  rewrite validationResult_flat. cbn -[isEmail isISO8601 isNumeric isInt_min0 toString prop].
  rewrite !app_nil_r, <- !app_assoc. reflexivity.
Qed.

Lemma is_string_inv (v : jsval) : is_string v = true -> exists s, v = JStr s.
Proof. destruct v; try discriminate. eauto. Qed.

Lemma if_nil_inv {A : Type} (c : bool) (x : A) :
  (if c then [x] else []) = [] -> c = false.
Proof. destruct c; [discriminate | reflexivity]. Qed.

Lemma passes_of_no_errors (b : gmap string jsval) :
  validationResult post_rules b = [] -> passes b.
Proof.
  rewrite post_rules_unfold. intros H.
  repeat (apply app_eq_nil in H as [?%if_nil_inv H]).
  apply if_nil_inv in H.
  repeat match goal with
         | Hn : negb _ = false |- _ => apply negb_false_iff in Hn
         end.
  repeat match goal with
         | Hs : is_string _ = true |- _ =>
             apply is_string_inv in Hs as [? Hs]; rewrite Hs in *
         end.
  constructor; simpl in *; eauto.
Qed.



Lemma isNumeric_nonempty (s : string) : isNumeric s = true -> isEmpty s = false.
Proof. destruct s; [discriminate | reflexivity]. Qed.


(** Membership in a concatenation of rule results. *)
Ltac in_apps :=
  repeat first [ apply in_or_app; left; solve [simpl; auto]
               | apply in_or_app; right ];
  try solve [simpl; auto].



(** ** Model calls *)

Lemma findById_resolves (e : env) (id k : string) (w : world) :
  castObjectId id = Some k -> fault e CallFindById = None ->
  Employee_findById e id w =
  (Resolved (Document k <$> db w !! k), World (db w) (calls w ++ [CallFindById])).
Proof.
  intros Hc Hf. unfold Employee_findById, bind, record_call, round_trip.
  simpl. rewrite Hc, Hf. reflexivity.
Qed.

Lemma findById_malformed (e : env) (id : string) (w : world) :
  castObjectId id = None ->
  Employee_findById e id w =
  (Rejected (cast_error id), World (db w) (calls w ++ [CallFindById])).
Proof.
  intros Hc. unfold Employee_findById, bind, record_call. simpl.
  rewrite Hc. reflexivity.
Qed.

Lemma findById_fault (e : env) (id k err : string) (w : world) :
  castObjectId id = Some k -> fault e CallFindById = Some err ->
  Employee_findById e id w =
  (Rejected err, World (db w) (calls w ++ [CallFindById])).
Proof.
  intros Hc Hf. unfold Employee_findById, bind, record_call, round_trip.
  simpl. rewrite Hc, Hf. reflexivity.
Qed.

(** A lookup never changes the collection. *)
Lemma findById_db (e : env) (id : string) (w : world) :
  db (snd (Employee_findById e id w)) = db w.
Proof.
  unfold Employee_findById, bind, record_call, round_trip. simpl.
  destruct (castObjectId id); [|reflexivity].
  destruct (fault e CallFindById); reflexivity.
Qed.

Lemma save_new_resolves (e : env) (d : document) (w : world) :
  missing_paths (doc d) = [] -> fault e CallSave = None ->
  db w !! _id d = None ->
  save e true d w =
  (Resolved d, World (<[_id d := doc d]> (db w)) (calls w ++ [CallSave])).
Proof.
  intros Hm Hf Hfree. unfold save, bind, record_call, round_trip. simpl.
  rewrite Hm, Hf. simpl. rewrite Hfree. reflexivity.
Qed.

Lemma save_stored_resolves (e : env) (d : document) (old : paths) (w : world) :
  missing_paths (doc d) = [] -> fault e CallSave = None ->
  db w !! _id d = Some old ->
  save e false d w =
  (Resolved d, World (<[_id d := doc d]> (db w)) (calls w ++ [CallSave])).
Proof.
  intros Hm Hf Hold. unfold save, bind, record_call, round_trip. simpl.
  rewrite Hm, Hf. simpl. rewrite Hold. reflexivity.
Qed.

(** Whatever [save] does, it resolves only after writing a document that
    passed the schema's required checks, and rejects without writing. *)
Lemma save_cases (e : env) (isNew : bool) (d : document) (w : world) :
  (exists err, save e isNew d w = (Rejected err, World (db w) (calls w ++ [CallSave])))
  \/ (missing_paths (doc d) = [] /\
      save e isNew d w =
      (Resolved d, World (<[_id d := doc d]> (db w)) (calls w ++ [CallSave]))).
Proof.
  unfold save, bind, record_call, round_trip. simpl.
  destruct (missing_paths (doc d)) eqn:Hm; [|left; eauto].
  destruct (fault e CallSave); simpl; [left; eauto|].
  destruct (db w !! _id d), isNew; simpl; eauto.
Qed.

Lemma castString_text (v : jsval) :
  isEmpty (toString v) = false -> castString v = JStr (toString v).
Proof. destruct v as [| |[]| |]; simpl; (discriminate || reflexivity). Qed.

Lemma isInt_min0_nonempty (s : string) : isInt_min0 s = true -> isEmpty s = false.
Proof. destruct s; [discriminate | reflexivity]. Qed.

Lemma isEmail_nonempty (s : string) : isEmail s = true -> isEmpty s = false.
Proof. destruct s; [discriminate | reflexivity]. Qed.

Lemma isISO8601_nonempty (s : string) : isISO8601 s = true -> isEmpty s = false.
Proof. destruct s; [discriminate | reflexivity]. Qed.

(** Every field of a body that passes validation has non-empty text. *)
Lemma passes_text (b : gmap string jsval) (k : string) :
  passes b -> In k required_fields -> isEmpty (toString (prop b k)) = false.
Proof.
  intros [(s1 & E1 & N1) He Hs Hsg Hx (s2 & E2 & N2) Hd (s3 & E3 & N3)] Hk.
  simpl in Hk.
  repeat (destruct Hk as [<- | Hk]); try contradiction.
  - rewrite E1. exact N1.
  - apply isEmail_nonempty, He.
  - exact Hsg.
  - apply isInt_min0_nonempty, Hx.
  - rewrite E2. exact N2.
  - apply isISO8601_nonempty, Hd.
  - rewrite E3. exact N3.
Qed.

Lemma stored_paths_get (b : gmap string jsval) (k : string) :
  In k required_fields -> get_path k (stored_paths b) = castString (prop b k).
Proof.
  intros Hk. simpl in Hk.
  repeat (destruct Hk as [<- | Hk]); try contradiction; reflexivity.
Qed.

Lemma stored_paths_text (b : gmap string jsval) (k : string) :
  passes b -> In k required_fields ->
  get_path k (stored_paths b) = JStr (toString (prop b k)).
Proof.
  intros Hp Hk. rewrite stored_paths_get by exact Hk.
  apply castString_text, passes_text; assumption.
Qed.

Lemma stored_paths_complete (b : gmap string jsval) :
  passes b -> missing_paths (stored_paths b) = [].
Proof.
  intros Hp. unfold missing_paths, employeeSchema.
  cbn [List.filter sp_name sp_required andb].
  rewrite !stored_paths_text by (assumption || (simpl; auto 10)).
  cbn [checkRequired].
  rewrite !passes_text by (assumption || (simpl; auto 10)).
  reflexivity.
Qed.

Lemma new_Employee_stored (id : string) (b : gmap string jsval) :
  new_Employee id (body_paths b) = Document id (stored_paths b).
Proof. reflexivity. Qed.

(** The seven assignments of the update route replace every path. *)
Lemma assign_all (b : gmap string jsval) (p : paths) :
  assign "secrete_code" (prop b "secrete_code")
    (assign "joining_date" (prop b "joining_date")
      (assign "dept_code" (prop b "dept_code")
        (assign "experience" (prop b "experience")
          (assign "emp_salary" (prop b "emp_salary")
            (assign "emp_email" (prop b "emp_email")
              (assign "emp_name" (prop b "emp_name") p))))))
  = stored_paths b.
Proof. destruct p. reflexivity. Qed.

(** ** Route handlers *)

Lemma get_employee_found (e : env) (id k : string) (p : paths) (w : world) :
  castObjectId id = Some k -> fault e CallFindById = None ->
  db w !! k = Some p ->
  get_employee e id w =
  (Response 200 (PDoc (Document k p)), World (db w) (calls w ++ [CallFindById])).
Proof.
  intros Hc Hf Hk. unfold get_employee, try_catch, bind.
  rewrite (findById_resolves e id k w Hc Hf), Hk. reflexivity.
Qed.

Lemma get_employee_absent (e : env) (id k : string) (w : world) :
  castObjectId id = Some k -> fault e CallFindById = None ->
  db w !! k = None ->
  get_employee e id w =
  (Response 404 (PObject "message" "Employee not found"),
   World (db w) (calls w ++ [CallFindById])).
Proof.
  intros Hc Hf Hk. unfold get_employee, try_catch, bind.
  rewrite (findById_resolves e id k w Hc Hf), Hk. reflexivity.
Qed.

Lemma post_employees_valid (e : env) (b : gmap string jsval) (w : world) :
  validationResult post_rules b = [] ->
  post_employees e b w =
  try_catch
    (await savedEmployee <- save e true (Document (fresh_id e) (stored_paths b)) ;
     ret (Response 201 (PDoc savedEmployee)))
    (fun err => Response 400 (PObject "message" err)) w.
Proof. intros Hv. unfold post_employees. rewrite Hv. reflexivity. Qed.

Lemma put_employee_valid (e : env) (id : string) (b : gmap string jsval) (w : world) :
  validationResult put_rules b = [] ->
  put_employee e id b w =
  try_catch
    (await employee <- Employee_findById e id ;
     match employee with
     | None => ret (Response 404 (PObject "message" "Employee not found"))
     | Some d =>
         await updatedEmployee <- save e false (Document (_id d) (stored_paths b)) ;
         ret (Response 200 (PDoc updatedEmployee))
     end)
    (fun err => Response 400 (PObject "message" err)) w.
Proof.
  intros Hv. unfold put_employee. rewrite Hv. unfold try_catch, bind.
  destruct (Employee_findById e id w) as [[[d|]|err] w']; reflexivity.
Qed.


(** C4. With a body that passes validation and a well-formed identifier,
    the update route answers 404 when no record has that identifier; when
    one has, it answers 200 with the updated record, which keeps the
    identifier and the place in the collection, and whose seven fields all
    come from the new body alone: nothing of the old record remains, and
    reading the record back returns the updated one. *)
Theorem update_overwrites (e e' : env) (id k : string) (b : gmap string jsval)
    (w : world) :
  validationResult put_rules b = [] ->
  castObjectId id = Some k ->
  fault e CallFindById = None ->
  fault e CallSave = None ->
  fault e' CallFindById = None ->
  (forall old, db w !! k = Some old ->
     let w' := World (<[k := stored_paths b]> (db w))
                     ((calls w ++ [CallFindById]) ++ [CallSave]) in
     put_employee e id b w = (Response 200 (PDoc (Document k (stored_paths b))), w')
     /\ (forall f, In f required_fields ->
           get_path f (stored_paths b) = JStr (toString (prop b f)))
     /\ (forall j, j <> k -> db w' !! j = db w !! j)
     /\ fst (get_employee e' id w') =
        Response 200 (PDoc (Document k (stored_paths b))))
  /\ (db w !! k = None ->
      put_employee e id b w =
      (Response 404 (PObject "message" "Employee not found"),
       World (db w) (calls w ++ [CallFindById]))).
Proof.
  intros Hv Hid Hfind Hsave Hfind'.
  pose proof (passes_of_no_errors b Hv) as Hp.
  split.
  - intros old Hold w'. split; [|split; [|split]].
    + rewrite put_employee_valid by exact Hv. unfold try_catch, bind.
      rewrite (findById_resolves e id k w Hid Hfind), Hold. cbn [fmap option_fmap option_map _id].
      rewrite (save_stored_resolves e (Document k (stored_paths b)) old
                 (World (db w) (calls w ++ [CallFindById]))
                 (stored_paths_complete b Hp) Hsave Hold).
      reflexivity.
    + intros f Hf. apply stored_paths_text; assumption.
    + intros j Hj. subst w'. cbn [db]. apply lookup_insert_ne. auto.
    + rewrite (get_employee_found e' id k (stored_paths b));
        [reflexivity | exact Hid | exact Hfind' |].
      subst w'. cbn [db]. apply lookup_insert_eq.
  - intros Hnone. rewrite put_employee_valid by exact Hv.
    unfold try_catch, bind.
    rewrite (findById_resolves e id k w Hid Hfind), Hnone. reflexivity.
Qed.

(** C5. Deleting by a well-formed identifier answers 404 and leaves the
    collection alone when no record has it; when one has, the route
    answers 200 with the confirmation message and removes that record and
    no other, after which reading by the same identifier answers 404. *)
Theorem delete_then_get (e e' : env) (id k : string) (w : world) :
  castObjectId id = Some k ->
  fault e CallFindById = None ->
  fault e CallDeleteOne = None ->
  fault e' CallFindById = None ->
  (forall old, db w !! k = Some old ->
     let w' := World (delete k (db w))
                     ((calls w ++ [CallFindById]) ++ [CallDeleteOne]) in
     delete_employee e id w =
       (Response 200 (PObject "message" "Employee deleted"), w')
     /\ db w' !! k = None
     /\ (forall j, j <> k -> db w' !! j = db w !! j)
     /\ fst (get_employee e' id w') =
        Response 404 (PObject "message" "Employee not found"))
  /\ (db w !! k = None ->
      delete_employee e id w =
      (Response 404 (PObject "message" "Employee not found"),
       World (db w) (calls w ++ [CallFindById]))).
Proof.
  intros Hid Hfind Hdel Hfind'. split.
  - intros old Hold w'.
    assert (Hgone : db w' !! k = None) by (subst w'; cbn [db]; apply lookup_delete_eq).
    split; [|split; [|split]].
    + unfold delete_employee, try_catch, bind.
      rewrite (findById_resolves e id k w Hid Hfind), Hold.
      cbn [fmap option_fmap option_map].
      unfold deleteOne, bind, record_call, round_trip. simpl.
      rewrite Hdel. reflexivity.
    + exact Hgone.
    + intros j Hj. subst w'. cbn [db]. apply lookup_delete_ne. auto.
    + rewrite (get_employee_absent e' id k w' Hid Hfind' Hgone). reflexivity.
  - intros Hnone. unfold delete_employee, try_catch, bind.
    rewrite (findById_resolves e id k w Hid Hfind), Hnone. reflexivity.
Qed.

(** C6. Reading by an identifier that does not cast to an ObjectId is
    answered 500 with the cast error's text under [message]; a 404 from
    this route means the identifier was well formed and no record has
    it. *)
Theorem malformed_id_is_storage_error (e : env) (id : string) (w : world) :
  (castObjectId id = None ->
     get_employee e id w =
     (Response 500 (PObject "message" (cast_error id)),
      World (db w) (calls w ++ [CallFindById])))
  /\ (status (fst (get_employee e id w)) = 404 ->
      exists k, castObjectId id = Some k /\ db w !! k = None).
Proof.
  split.
  - intros Hc. unfold get_employee, try_catch, bind.
    rewrite (findById_malformed e id w Hc). reflexivity.
  - unfold get_employee, try_catch, bind.
    destruct (castObjectId id) as [k|] eqn:Hc.
    + destruct (fault e CallFindById) as [err|] eqn:Hf.
      * rewrite (findById_fault e id k err w Hc Hf). simpl. discriminate.
      * rewrite (findById_resolves e id k w Hc Hf).
        destruct (db w !! k) eqn:Hk; simpl; [discriminate|]. eauto.
    + rewrite (findById_malformed e id w Hc). simpl. discriminate.
Qed.

(** C9. When the create or the update route answers 400 with a violation
    list, the world is untouched: the collection is what it was and no
    model call has been issued. *)
Theorem validation_failure_atomic (e : env) (id : string)
    (b : gmap string jsval) (w w' : world) (errs : list verror) :
  (post_employees e b w = (Response 400 (PErrors errs), w') ->
     w' = w /\ errs = validationResult post_rules b /\ errs <> [])
  /\ (put_employee e id b w = (Response 400 (PErrors errs), w') ->
      w' = w /\ errs = validationResult put_rules b /\ errs <> []).
Proof.
  split.
  - destruct (validationResult post_rules b) as [|x l] eqn:Hv.
    + rewrite post_employees_valid by exact Hv. unfold try_catch, bind.
      destruct (save_cases e true (Document (fresh_id e) (stored_paths b)) w)
        as [[err ->] | [_ ->]]; simpl; intros H; discriminate H.
    + unfold post_employees. rewrite Hv. intros H. inversion H. subst.
      repeat split; congruence.
  - destruct (validationResult put_rules b) as [|x l] eqn:Hv.
    + rewrite put_employee_valid by exact Hv. unfold try_catch, bind.
      destruct (Employee_findById e id w) as [[[d|]|err] w1]; simpl;
        try (intros H; discriminate H).
      destruct (save_cases e false (Document (_id d) (stored_paths b)) w1)
        as [[err ->] | [_ ->]]; simpl; intros H; discriminate H.
    + unfold put_employee. rewrite Hv. intros H. inversion H. subst.
      repeat split; congruence.
Qed.

(** ** Search *)

Lemma prefix_cons (a b : ascii) (t s : string) :
  String.prefix (String a t) (String b s) = Ascii.eqb a b && String.prefix t s.
Proof.
  simpl. destruct (Ascii.ascii_dec a b) as [->|Hne].
  - rewrite Ascii.eqb_refl. reflexivity.
  - apply Ascii.eqb_neq in Hne. rewrite Hne. reflexivity.
Qed.

(** A literal term parses to its own characters, and matching them at a
    position is a case-folded prefix test. *)
Lemma literal_term_parse (term : string) :
  literal_term term = true ->
  exists p, parse_plain term = Some p /\
            forall s, match_here p s = String.prefix (lower term) (lower s).
Proof.
  induction term as [|c r IH]; intros Hl.
  - exists []. split; [reflexivity|]. intros s. destruct s; reflexivity.
  - simpl in Hl. apply andb_prop in Hl as [Hl Hr].
    apply andb_prop in Hl as [Hdot Hsp].
    apply negb_true_iff in Hdot, Hsp.
    destruct (IH Hr) as (p & Hp & Hm).
    exists (Lit c :: p). split.
    + simpl. rewrite Hdot. fold regex_special. rewrite Hsp, Hp. reflexivity.
    + intros [|x s].
      * reflexivity.
      * cbn [match_here atom_matches lower]. rewrite prefix_cons, Hm. reflexivity.
Qed.

Lemma regex_search_substring (p : list atom) (t : string) :
  (forall s, match_here p s = String.prefix t (lower s)) ->
  forall s, regex_search p s = is_substring t (lower s).
Proof.
  intros Hm s. induction s as [|x s IH].
  - simpl. rewrite Hm. reflexivity.
  - cbn [regex_search is_substring lower]. rewrite Hm, IH. reflexivity.
Qed.

Lemma regex_compile_literal (term : string) :
  literal_term term = true ->
  exists matches, regex_compile term = Some matches /\
                  forall s, matches s = name_contains term s.
Proof.
  intros Hl. destruct (literal_term_parse term Hl) as (p & Hp & Hm).
  exists (regex_search p). unfold regex_compile. rewrite Hp.
  split; [reflexivity|]. intros s. unfold name_contains.
  apply regex_search_substring, Hm.
Qed.

(** [is_substring] is containment as a contiguous run. *)
Lemma prefix_app (t s : string) :
  String.prefix t s = true <-> exists post, s = t +:+ post.
Proof.
  revert s. induction t as [|a t IH]; intros s.
  - split; [intros _; exists s; reflexivity | intros _; destruct s; reflexivity].
  - destruct s as [|b s].
    + split; [discriminate | intros [post H]; discriminate H].
    + rewrite prefix_cons. split.
      * intros H. apply andb_prop in H as [Hab Hp].
        apply Ascii.eqb_eq in Hab as ->. apply IH in Hp as [post ->].
        exists post. reflexivity.
      * intros [post H]. simpl in H. inversion H; subst.
        rewrite Ascii.eqb_refl. apply IH. eexists. reflexivity.
Qed.

Lemma is_substring_spec (t s : string) :
  is_substring t s = true <-> exists pre post, s = pre +:+ t +:+ post.
Proof.
  induction s as [|b s IH].
  - cbn [is_substring]. rewrite orb_false_r, prefix_app. split.
    + intros [post H]. exists EmptyString, post. exact H.
    + intros (pre & post & H). destruct pre; [eauto | discriminate H].
  - cbn [is_substring]. rewrite orb_true_iff, prefix_app, IH. split.
    + intros [[post H] | (pre & post & H)].
      * exists EmptyString, post. exact H.
      * exists (String b pre), post. rewrite H. reflexivity.
    + intros (pre & post & H). destruct pre as [|c pre].
      * left. exists post. exact H.
      * right. simpl in H. inversion H. eauto.
Qed.

Lemma in_documents (m : gmap string paths) (d : document) :
  In d (documents m) <-> m !! _id d = Some (doc d).
Proof.
  unfold documents. rewrite <- list_elem_of_In, list_elem_of_fmap. split.
  - intros ([k p] & -> & H). apply elem_of_map_to_list in H. exact H.
  - intros H. exists (_id d, doc d). split; [destruct d; reflexivity|].
    apply elem_of_map_to_list. exact H.
Qed.

Lemma NoDup_documents (m : gmap string paths) : List.NoDup (documents m).
Proof.
  apply NoDup_ListNoDup. unfold documents.
  apply NoDup_fmap_2; [|apply NoDup_map_to_list].
  intros [k1 p1] [k2 p2] H. inversion H. reflexivity.
Qed.

Lemma find_regex_literal (e : env) (term : string) (w : world) :
  literal_term term = true -> fault e CallFind = None ->
  Employee_find_regex e term w =
  (Resolved (List.filter (name_matches term) (documents (db w))),
   World (db w) (calls w ++ [CallFind])).
Proof.
  intros Hl Hf. destruct (regex_compile_literal term Hl) as (matches & Hc & Hm).
  unfold Employee_find_regex, bind, record_call, round_trip. simpl.
  rewrite Hf, Hc. simpl. unfold ret. f_equal. f_equal.
  apply filter_ext. intros d. unfold name_matches.
  destruct (emp_name (doc d)); auto.
Qed.

Lemma find_regex_fault (e : env) (term err : string) (w : world) :
  fault e CallFind = Some err ->
  Employee_find_regex e term w =
  (Rejected err, World (db w) (calls w ++ [CallFind])).
Proof.
  intros Hf. unfold Employee_find_regex, bind, record_call, round_trip.
  simpl. rewrite Hf. reflexivity.
Qed.

(** C3, as the code has it. For a search term free of regular-expression
    syntax and a store that answers, the search route returns exactly the
    stored records whose name contains the term as a substring, letter
    case ignored, each once, with status 200; when no record matches it
    answers 404 with the message "No employees found". *)
Theorem search_literal_term (e : env) (term : string) (w : world) :
  literal_term term = true ->
  fault e CallFind = None ->
  let found := List.filter (name_matches term) (documents (db w)) in
  search_employees e term w =
    (match found with
     | [] => Response 404 (PObject "message" "No employees found")
     | _ :: _ => Response 200 (PDocs found)
     end,
     World (db w) (calls w ++ [CallFind]))
  /\ List.NoDup found
  /\ (forall d, In d found <->
        db w !! _id d = Some (doc d) /\
        exists s, emp_name (doc d) = JStr s /\
                  exists pre post, lower s = pre +:+ lower term +:+ post).
Proof.
  intros Hl Hf found. split; [|split].
  - unfold search_employees, try_catch, settle, bind.
    rewrite (find_regex_literal e term w Hl Hf). fold found.
    destruct found; reflexivity.
  - apply List.NoDup_filter, NoDup_documents.
  - intros d. subst found. rewrite filter_In, in_documents.
    unfold name_matches, name_contains. split.
    + intros [Hd Hm]. split; [exact Hd|].
      destruct (emp_name (doc d)) as [| | | |s]; try discriminate.
      exists s. split; [reflexivity|]. apply is_substring_spec, Hm.
    + intros [Hd (s & -> & Hs)]. split; [exact Hd|].
      apply is_substring_spec, Hs.
Qed.

(** Storage failures as each route reports them. *)
Lemma storage_errors_reported (e : env) (err : string) (w : world) :
  (fault e CallFind = Some err ->
     fst (get_employees e w) = Response 500 (PObject "message" err))
  /\ (forall id k, castObjectId id = Some k -> fault e CallFindById = Some err ->
        fst (get_employee e id w) = Response 500 (PObject "message" err)
        /\ fst (delete_employee e id w) = Response 500 (PObject "message" err))
  /\ (forall b, validationResult post_rules b = [] -> fault e CallSave = Some err ->
        fst (post_employees e b w) = Response 400 (PObject "message" err))
  /\ (forall id k old b, validationResult put_rules b = [] ->
        castObjectId id = Some k -> db w !! k = Some old ->
        fault e CallFindById = None -> fault e CallSave = Some err ->
        fst (put_employee e id b w) = Response 400 (PObject "message" err))
  /\ (forall name, fault e CallFind = Some err ->
        fst (search_employees e name w) = Response 500 (PObject "error" err)).
Proof.
  split; [|split; [|split; [|split]]].
  - intros Hf. unfold get_employees, try_catch, bind, Employee_find, bind,
      record_call, round_trip. simpl. rewrite Hf. reflexivity.
  - intros id k Hc Hf. unfold get_employee, delete_employee, try_catch, bind.
    rewrite (findById_fault e id k err w Hc Hf). auto.
  - intros b Hv Hf. rewrite post_employees_valid by exact Hv.
    pose proof (passes_of_no_errors b Hv) as Hp.
    unfold try_catch, bind, save, bind, record_call, round_trip. simpl.
    rewrite (stored_paths_complete b Hp), Hf. reflexivity.
  - intros id k old b Hv Hc Hold Hfind Hf. rewrite put_employee_valid by exact Hv.
    pose proof (passes_of_no_errors b Hv) as Hp.
    unfold try_catch, bind.
    rewrite (findById_resolves e id k w Hc Hfind), Hold.
    cbn [fmap option_fmap option_map _id].
    unfold save, bind, record_call, round_trip. simpl.
    rewrite (stored_paths_complete b Hp), Hf. reflexivity.
  - intros name Hf. unfold search_employees, try_catch, settle, bind.
    rewrite (find_regex_fault e name err w Hf). reflexivity.
Qed.

(** C8. The create route and the update route run the same rules: the two
    rule lists are equal, they name the seven fields in the same order,
    and so they give every body the same violation list. *)
Theorem create_update_same_validation (b : gmap string jsval) :
  validationResult post_rules b = validationResult put_rules b
  /\ put_rules = post_rules
  /\ List.map path post_rules = required_fields.
Proof. repeat split. Qed.

(** ** What the collection holds *)

Lemma checkRequired_nonempty_text (v : jsval) : checkRequired v = nonempty_text v.
Proof. reflexivity. Qed.








(** * Further properties of the routes *)

(** ** Reading *)

Lemma find_db (e : env) (w : world) :
  db (snd (Employee_find e w)) = db w
  /\ calls (snd (Employee_find e w)) = calls w ++ [CallFind].
Proof.
  unfold Employee_find, bind, record_call, round_trip. simpl.
  destruct (fault e CallFind); split; reflexivity.
Qed.

Lemma findById_calls (e : env) (id : string) (w : world) :
  calls (snd (Employee_findById e id w)) = calls w ++ [CallFindById].
Proof.
  unfold Employee_findById, bind, record_call, round_trip. simpl.
  destruct (castObjectId id); [|reflexivity].
  destruct (fault e CallFindById); reflexivity.
Qed.

Lemma find_regex_db (e : env) (name : string) (w : world) :
  db (snd (Employee_find_regex e name w)) = db w
  /\ calls (snd (Employee_find_regex e name w)) = calls w ++ [CallFind].
Proof.
  unfold Employee_find_regex, bind, record_call, round_trip. simpl.
  destruct (fault e CallFind); [split; reflexivity|].
  destruct (regex_compile name); split; reflexivity.
Qed.

(** X1. The list, read-by-id and search routes never change the
    collection, whatever the store does, and each issues exactly one
    model call. *)
Theorem reads_leave_collection (e : env) (r : request) (w : world) :
  reads_only r = true ->
  db (snd (handle e r w)) = db w
  /\ exists c, calls (snd (handle e r w)) = calls w ++ [c].
Proof.
  destruct r as [b| |id|id b|id|name]; intros Hr; try discriminate Hr;
    cbn [handle].
  - unfold get_employees, try_catch, bind.
    destruct (find_db e w) as [Hd Hc].
    destruct (Employee_find e w) as [[l|err] w1]; cbn [snd] in *;
      split; eauto.
  - unfold get_employee, try_catch, bind.
    pose proof (findById_db e id w) as Hd.
    pose proof (findById_calls e id w) as Hc.
    destruct (Employee_findById e id w) as [[[d|]|err] w1]; cbn [snd] in *;
      split; eauto.
  - unfold search_employees, try_catch, settle, bind.
    destruct (find_regex_db e name w) as [Hd Hc].
    destruct (Employee_find_regex e name w) as [[[|d l]|err] w1];
      cbn [snd] in *; split; eauto.
Qed.

(** The answer of a route depends on the collection only, not on the
    calls made before. *)
Lemma handle_response_db (e : env) (r : request) (m : gmap string paths)
    (c1 c2 : list call) :
  fst (handle e r (World m c1)) = fst (handle e r (World m c2)).
Proof.
  destruct r as [b| |id|id b|id|name]; cbn [handle].
  - unfold post_employees.
    destruct (validationResult post_rules b); [|reflexivity].
    unfold try_catch, bind, save, bind, record_call, round_trip. simpl.
    destruct (missing_paths _); [|reflexivity].
    destruct (fault e CallSave); simpl; [reflexivity|].
    destruct (m !! fresh_id e); reflexivity.
  - unfold get_employees, try_catch, bind, Employee_find, bind, record_call,
      round_trip. simpl.
    destruct (fault e CallFind); reflexivity.
  - unfold get_employee, try_catch, bind, Employee_findById, bind, record_call,
      round_trip. simpl.
    destruct (castObjectId id); [|reflexivity].
    destruct (fault e CallFindById); simpl; [reflexivity|].
    destruct (m !! s); reflexivity.
  - unfold put_employee.
    destruct (validationResult put_rules b); [|reflexivity].
    unfold try_catch, bind, Employee_findById, bind, record_call,
      round_trip. simpl.
    destruct (castObjectId id); [|reflexivity].
    destruct (fault e CallFindById); simpl; [reflexivity|].
    destruct (m !! s) eqn:Hm; simpl; [|reflexivity].
    unfold save, bind, record_call, round_trip. simpl.
    destruct (missing_paths _); [|reflexivity].
    destruct (fault e CallSave); simpl; [reflexivity|].
    rewrite Hm. reflexivity.
  - unfold delete_employee, try_catch, bind, Employee_findById, bind,
      record_call, round_trip. simpl.
    destruct (castObjectId id); [|reflexivity].
    destruct (fault e CallFindById); simpl; [reflexivity|].
    destruct (m !! s); simpl; [|reflexivity].
    unfold deleteOne, bind, record_call, round_trip. simpl.
    destruct (fault e CallDeleteOne); reflexivity.
  - unfold search_employees, try_catch, settle, bind, Employee_find_regex,
      bind, record_call, round_trip. simpl.
    destruct (fault e CallFind); [reflexivity|].
    destruct (regex_compile name); simpl; [|reflexivity].
    destruct (List.filter _ _); reflexivity.
Qed.

Lemma handle_reads_db (e : env) (r : request) (w : world) :
  reads_only r = true -> db (snd (handle e r w)) = db w.
Proof.
  destruct r as [b| |id|id b|id|name]; intros Hr; try discriminate Hr;
    cbn [handle].
  - unfold get_employees, try_catch, bind.
    destruct (find_db e w) as [Hd _].
    destruct (Employee_find e w) as [[l|err] w1]; exact Hd.
  - unfold get_employee, try_catch, bind.
    pose proof (findById_db e id w) as Hd.
    destruct (Employee_findById e id w) as [[[d|]|err] w1]; exact Hd.
  - unfold search_employees, try_catch, settle, bind.
    destruct (find_regex_db e name w) as [Hd _].
    destruct (Employee_find_regex e name w) as [[[|d l]|err] w1]; exact Hd.
Qed.

Lemma serve_reads_db (reqs : list (env * request)) :
  forall w,
    forallb (fun er => reads_only (snd er)) reqs = true ->
    db (serve reqs w) = db w.
Proof.
  induction reqs as [|[e r] reqs IH]; intros w Hall; [reflexivity|].
  cbn [serve]. cbn [forallb snd] in Hall.
  apply andb_prop in Hall as [Hr Hrest].
  rewrite (IH _ Hrest). apply handle_reads_db, Hr.
Qed.

(** X2. Reads are repeatable: after any number of list, read-by-id and
    search requests, in whatever environments, every route answers a
    request as it would have answered it before them. *)
Theorem reads_do_not_disturb (reqs : list (env * request)) (e : env)
    (r : request) (w : world) :
  forallb (fun er => reads_only (snd er)) reqs = true ->
  fst (handle e r (serve reqs w)) = fst (handle e r w).
Proof.
  intros Hall. pose proof (serve_reads_db reqs w Hall) as Hdb.
  destruct (serve reqs w) as [m1 c1]. destruct w as [m c].
  cbn [db] in Hdb. subst m1. apply handle_response_db.
Qed.

Lemma documents_ids (m : gmap string paths) :
  List.map _id (documents m) = (map_to_list m).*1.
Proof.
  unfold documents. induction (map_to_list m) as [|[k p] l IH];
    [reflexivity|]. simpl. f_equal. exact IH.
Qed.

Lemma length_documents (m : gmap string paths) :
  length (documents m) = size m.
Proof. unfold documents. rewrite length_fmap. apply length_map_to_list. Qed.

(** X3. When the store answers, the list route responds 200 with every
    stored record and nothing else, one entry per identifier; an empty
    collection is answered 200 with an empty array, not 404. *)
Theorem list_returns_all (e : env) (w : world) :
  fault e CallFind = None ->
  get_employees e w =
    (Response 200 (PDocs (documents (db w))),
     World (db w) (calls w ++ [CallFind]))
  /\ (forall d, In d (documents (db w)) <-> db w !! _id d = Some (doc d))
  /\ List.NoDup (List.map _id (documents (db w)))
  /\ length (documents (db w)) = size (db w)
  /\ (db w = ∅ -> documents (db w) = []).
Proof.
  intros Hf. split; [|split; [|split; [|split]]].
  - unfold get_employees, try_catch, bind, Employee_find, bind, record_call,
      round_trip. simpl. rewrite Hf. reflexivity.
  - intros d. apply in_documents.
  - rewrite documents_ids. apply NoDup_ListNoDup, NoDup_fst_map_to_list.
  - apply length_documents.
  - intros ->. unfold documents. rewrite map_to_list_empty. reflexivity.
Qed.

(** ** Statuses and failures *)

(** X4. Each route answers only with the statuses written in it: create
    201 or 400; list 200 or 500; read and delete 200, 404 or 500; update
    200, 404 or 400; search 200, 404 or 500. In particular create and
    update never answer 500, and list never answers 404. *)
Theorem route_statuses (e : env) (r : request) (w : world) :
  In (status (fst (handle e r w))) (statuses r).
Proof.
  destruct r as [b| |id|id b|id|name]; cbn [handle statuses].
  - unfold post_employees.
    destruct (validationResult post_rules b); [|simpl; auto].
    unfold try_catch, bind.
    destruct (save e true _ w) as [[d|err] w1]; simpl; auto.
  - unfold get_employees, try_catch, bind.
    destruct (Employee_find e w) as [[l|err] w1]; simpl; auto.
  - unfold get_employee, try_catch, bind.
    destruct (Employee_findById e id w) as [[[d|]|err] w1]; simpl; auto.
  - unfold put_employee.
    destruct (validationResult put_rules b); [|simpl; auto].
    unfold try_catch, bind.
    destruct (Employee_findById e id w) as [[[d|]|err] w1]; simpl; auto.
    destruct (save e false _ w1) as [[d'|err] w2]; simpl; auto.
  - unfold delete_employee, try_catch, bind.
    destruct (Employee_findById e id w) as [[[d|]|err] w1]; simpl; auto.
    destruct (deleteOne e d w1) as [[[]|err] w2]; simpl; auto.
  - unfold search_employees, try_catch, settle, bind.
    destruct (Employee_find_regex e name w) as [[[|d l]|err] w1]; simpl; auto.
Qed.

Lemma deleteOne_cases (e : env) (d : document) (w : world) :
  (exists err, deleteOne e d w = (Rejected err, World (db w) (calls w ++ [CallDeleteOne])))
  \/ deleteOne e d w =
     (Resolved tt, World (delete (_id d) (db w)) (calls w ++ [CallDeleteOne])).
Proof.
  unfold deleteOne, bind, record_call, round_trip. simpl.
  destruct (fault e CallDeleteOne); simpl; eauto.
Qed.

(** X5. A request answered with an error status (400 or above) leaves the
    collection exactly as it was: the collection changes only under a 201
    from create or a 200 from update or delete. *)
Theorem failures_leave_collection (e : env) (r : request) (w : world) :
  400 <= status (fst (handle e r w)) ->
  db (snd (handle e r w)) = db w.
Proof.
  destruct r as [b| |id|id b|id|name]; cbn [handle].
  - unfold post_employees.
    destruct (validationResult post_rules b); [|reflexivity].
    unfold try_catch, bind.
    destruct (save_cases e true (new_Employee (fresh_id e) (body_paths b)) w)
      as [[err ->] | [_ ->]]; simpl; [reflexivity | lia].
  - intros _. apply (handle_reads_db e ListEmployees w eq_refl).
  - intros _. apply (handle_reads_db e (GetEmployee id) w eq_refl).
  - unfold put_employee.
    destruct (validationResult put_rules b); [|reflexivity].
    unfold try_catch, bind.
    pose proof (findById_db e id w) as Hd.
    destruct (Employee_findById e id w) as [[[d|]|err] w1]; cbn [snd] in Hd;
      try (intros _; exact Hd).
    cbv zeta.
    match goal with
    | |- context [save e false ?doc w1] =>
        destruct (save_cases e false doc w1) as [[err ->] | [_ ->]]
    end; simpl; [intros _; exact Hd | lia].
  - unfold delete_employee, try_catch, bind.
    pose proof (findById_db e id w) as Hd.
    destruct (Employee_findById e id w) as [[[d|]|err] w1]; cbn [snd] in Hd;
      try (intros _; exact Hd).
    destruct (deleteOne_cases e d w1) as [[err ->] | ->]; simpl;
      [intros _; exact Hd | lia].
  - intros _. apply (handle_reads_db e (SearchEmployees name) w eq_refl).
Qed.

(** ** Writing *)

Lemma post_db_cases (e : env) (b : gmap string jsval) (w : world) :
  db (snd (post_employees e b w)) = db w
  \/ (db w !! fresh_id e = None /\
      db (snd (post_employees e b w)) = <[fresh_id e := stored_paths b]> (db w)).
Proof.
  unfold post_employees.
  destruct (validationResult post_rules b); [|left; reflexivity].
  unfold try_catch, bind, save, bind, record_call, round_trip. simpl.
  destruct (missing_paths _); [|left; reflexivity].
  destruct (fault e CallSave); simpl; [left; reflexivity|].
  destruct (db w !! fresh_id e) eqn:Hk; simpl; [left; reflexivity|].
  right. split; reflexivity.
Qed.

Lemma put_db_cases (e : env) (id : string) (b : gmap string jsval) (w : world) :
  db (snd (put_employee e id b w)) = db w
  \/ (exists k old, castObjectId id = Some k /\ db w !! k = Some old /\
        db (snd (put_employee e id b w)) = <[k := stored_paths b]> (db w)).
Proof.
  unfold put_employee.
  destruct (validationResult put_rules b); [|left; reflexivity].
  unfold try_catch, bind, Employee_findById, bind, record_call, round_trip.
  simpl.
  destruct (castObjectId id) as [k|]; [|left; reflexivity].
  destruct (fault e CallFindById); simpl; [left; reflexivity|].
  destruct (db w !! k) as [old|] eqn:Hk; simpl; [|left; reflexivity].
  unfold save, bind, record_call, round_trip. simpl.
  destruct (missing_paths _); [|left; reflexivity].
  destruct (fault e CallSave); simpl; [left; reflexivity|].
  rewrite Hk. simpl. right. exists k, old. auto.
Qed.

Lemma delete_db_cases (e : env) (id : string) (w : world) :
  db (snd (delete_employee e id w)) = db w
  \/ (exists k old, castObjectId id = Some k /\ db w !! k = Some old /\
        db (snd (delete_employee e id w)) = delete k (db w)).
Proof.
  unfold delete_employee, try_catch, bind, Employee_findById, bind,
    record_call, round_trip. simpl.
  destruct (castObjectId id) as [k|]; [|left; reflexivity].
  destruct (fault e CallFindById); simpl; [left; reflexivity|].
  destruct (db w !! k) as [old|] eqn:Hk; simpl; [|left; reflexivity].
  unfold deleteOne, bind, record_call, round_trip. simpl.
  destruct (fault e CallDeleteOne); simpl; [left; reflexivity|].
  right. exists k, old. auto.
Qed.

(** X6. Whatever the body, the identifier and the store's behaviour, a
    write touches at most one record. Create never alters or removes a
    stored record and can only add one under the new identifier; update
    never adds or removes a record and leaves every other record as it
    was; delete leaves every other record as it was and adds none. *)
Theorem writes_touch_one_record (e : env) (w : world) :
  (forall b k p, db w !! k = Some p ->
     db (snd (post_employees e b w)) !! k = Some p)
  /\ (forall b k, k <> fresh_id e ->
        db (snd (post_employees e b w)) !! k = db w !! k)
  /\ (forall id b k,
        is_Some (db (snd (put_employee e id b w)) !! k) <-> is_Some (db w !! k))
  /\ (forall id b k, castObjectId id <> Some k ->
        db (snd (put_employee e id b w)) !! k = db w !! k)
  /\ (forall id k, castObjectId id <> Some k ->
        db (snd (delete_employee e id w)) !! k = db w !! k)
  /\ (forall id k p, db (snd (delete_employee e id w)) !! k = Some p ->
        db w !! k = Some p).
Proof.
  split; [|split; [|split; [|split; [|split]]]].
  - intros b k p Hk. destruct (post_db_cases e b w) as [-> | [Hfree ->]];
      [exact Hk|].
    rewrite lookup_insert_ne; [exact Hk|]. intros <-. congruence.
  - intros b k Hne. destruct (post_db_cases e b w) as [-> | [_ ->]];
      [reflexivity|].
    apply lookup_insert_ne. auto.
  - intros id b k.
    destruct (put_db_cases e id b w) as [-> | (j & old & _ & Hj & ->)];
      [reflexivity|].
    rewrite lookup_insert. case_decide; [subst; rewrite Hj|]; split; eauto.
  - intros id b k Hne.
    destruct (put_db_cases e id b w) as [-> | (j & old & Hc & _ & ->)];
      [reflexivity|].
    apply lookup_insert_ne. intros <-. auto.
  - intros id k Hne.
    destruct (delete_db_cases e id w) as [-> | (j & old & Hc & _ & ->)];
      [reflexivity|].
    apply lookup_delete_ne. intros <-. auto.
  - intros id k p.
    destruct (delete_db_cases e id w) as [-> | (j & old & _ & _ & ->)];
      [auto|].
    rewrite lookup_delete. case_decide; [discriminate | auto].
Qed.

(** X7. On the update route a body that passes validation with an
    identifier that does not cast is answered 400 with the cast error under
    [message] (not 404, not 500); on the delete route the same identifier is
    answered 500. Validation comes first: a failing body is answered with
    its violation list whatever the identifier. Nothing is changed in any
    of these cases. *)
Theorem malformed_id_on_writes (e : env) (id : string) (b : gmap string jsval)
    (w : world) :
  castObjectId id = None ->
  (validationResult put_rules b = [] ->
     put_employee e id b w =
     (Response 400 (PObject "message" (cast_error id)),
      World (db w) (calls w ++ [CallFindById])))
  /\ (validationResult put_rules b <> [] ->
      put_employee e id b w =
      (Response 400 (PErrors (validationResult put_rules b)), w))
  /\ delete_employee e id w =
     (Response 500 (PObject "message" (cast_error id)),
      World (db w) (calls w ++ [CallFindById])).
Proof.
  intros Hc. split; [|split].
  - intros Hv. rewrite put_employee_valid by exact Hv.
    unfold try_catch, bind. rewrite (findById_malformed e id w Hc). reflexivity.
  - intros Hv. unfold put_employee.
    destruct (validationResult put_rules b); [contradiction | reflexivity].
  - unfold delete_employee, try_catch, bind.
    rewrite (findById_malformed e id w Hc). reflexivity.
Qed.

Lemma post_employees_created (e : env) (b : gmap string jsval) (w : world) :
  validationResult post_rules b = [] ->
  db w !! fresh_id e = None ->
  fault e CallSave = None ->
  post_employees e b w =
  (Response 201 (PDoc (Document (fresh_id e) (stored_paths b))),
   World (<[fresh_id e := stored_paths b]> (db w)) (calls w ++ [CallSave])).
Proof.
  intros Hv Hfree Hsave. pose proof (passes_of_no_errors b Hv) as Hp.
  rewrite post_employees_valid by exact Hv. unfold try_catch, bind.
  rewrite (save_new_resolves e (Document (fresh_id e) (stored_paths b)) w
             (stored_paths_complete b Hp) Hsave Hfree).
  reflexivity.
Qed.

(** X8. After a successful create, the list route returns the new record
    together with exactly the records listed before: one more entry. *)
Theorem create_then_list (e e' : env) (b : gmap string jsval) (w : world) :
  validationResult post_rules b = [] ->
  db w !! fresh_id e = None ->
  fault e CallSave = None ->
  fault e' CallFind = None ->
  let w' := snd (post_employees e b w) in
  fst (get_employees e' w') = Response 200 (PDocs (documents (db w')))
  /\ (forall d, In d (documents (db w')) <->
        d = Document (fresh_id e) (stored_paths b) \/ In d (documents (db w)))
  /\ length (documents (db w')) = S (length (documents (db w))).
Proof.
  intros Hv Hfree Hsave Hfind w'. subst w'.
  rewrite (post_employees_created e b w Hv Hfree Hsave). cbn [snd db].
  split; [|split].
  - unfold get_employees, try_catch, bind, Employee_find, bind, record_call,
      round_trip. simpl. rewrite Hfind. reflexivity.
  - intros d. rewrite !in_documents, lookup_insert. case_decide as Hk.
    + split.
      * intros [= Hd]. left. destruct d as [i p]. simpl in *. congruence.
      * intros [-> | Hd]; [reflexivity|]. congruence.
    + split; [auto|]. intros [-> | Hd]; [|exact Hd]. contradiction Hk.
      reflexivity.
  - rewrite !length_documents. apply map_size_insert_None, Hfree.
Qed.

(** X9. Deleting a record right after creating it gives back the
    collection as it was before the create. *)
Theorem create_then_delete (e e' : env) (b : gmap string jsval) (w : world) :
  validationResult post_rules b = [] ->
  castObjectId (fresh_id e) = Some (fresh_id e) ->
  db w !! fresh_id e = None ->
  fault e CallSave = None ->
  fault e' CallFindById = None ->
  fault e' CallDeleteOne = None ->
  let w' := snd (post_employees e b w) in
  fst (delete_employee e' (fresh_id e) w') =
    Response 200 (PObject "message" "Employee deleted")
  /\ db (snd (delete_employee e' (fresh_id e) w')) = db w.
Proof.
  intros Hv Hid Hfree Hsave Hfind Hdel w'. subst w'.
  rewrite (post_employees_created e b w Hv Hfree Hsave). cbn [snd].
  unfold delete_employee, try_catch, bind.
  rewrite (findById_resolves e' (fresh_id e) (fresh_id e) _ Hid Hfind).
  cbn [db]. rewrite lookup_insert_eq. cbn [fmap option_fmap option_map].
  unfold deleteOne, bind, record_call, round_trip. simpl. rewrite Hdel.
  simpl. split; [reflexivity|]. apply delete_insert_id, Hfree.
Qed.

Lemma put_employee_updated (e : env) (id k : string) (old : paths)
    (b : gmap string jsval) (w : world) :
  validationResult put_rules b = [] ->
  castObjectId id = Some k ->
  db w !! k = Some old ->
  fault e CallFindById = None ->
  fault e CallSave = None ->
  put_employee e id b w =
  (Response 200 (PDoc (Document k (stored_paths b))),
   World (<[k := stored_paths b]> (db w))
         ((calls w ++ [CallFindById]) ++ [CallSave])).
Proof.
  intros Hv Hid Hold Hfind Hsave. pose proof (passes_of_no_errors b Hv) as Hp.
  rewrite put_employee_valid by exact Hv. unfold try_catch, bind.
  rewrite (findById_resolves e id k w Hid Hfind), Hold.
  cbn [fmap option_fmap option_map _id].
  rewrite (save_stored_resolves e (Document k (stored_paths b)) old
             (World (db w) (calls w ++ [CallFindById]))
             (stored_paths_complete b Hp) Hsave Hold).
  reflexivity.
Qed.

(** X10. Update is idempotent: sending the same update again is answered
    with the same 200 and record, and leaves the collection as the first
    update left it. *)
Theorem update_idempotent (e : env) (id k : string) (old : paths)
    (b : gmap string jsval) (w : world) :
  validationResult put_rules b = [] ->
  castObjectId id = Some k ->
  db w !! k = Some old ->
  fault e CallFindById = None ->
  fault e CallSave = None ->
  let w' := snd (put_employee e id b w) in
  fst (put_employee e id b w') = fst (put_employee e id b w)
  /\ status (fst (put_employee e id b w')) = 200
  /\ db (snd (put_employee e id b w')) = db w'.
Proof.
  intros Hv Hid Hold Hfind Hsave w'. subst w'.
  rewrite (put_employee_updated e id k old b w Hv Hid Hold Hfind Hsave).
  cbn [snd fst].
  rewrite (put_employee_updated e id k (stored_paths b) b _ Hv Hid
             (lookup_insert_eq _ _ _) Hfind Hsave).
  cbn [snd fst db status]. split; [reflexivity|]. split; [reflexivity|].
  apply insert_insert_eq.
Qed.

(** X11. A deleted record stays deleted: after a successful delete, an
    update with a body that passes validation and a second delete of the
    same identifier are both answered 404 and change nothing. *)
Theorem delete_is_final (e e' : env) (id k : string) (old : paths)
    (b : gmap string jsval) (w : world) :
  castObjectId id = Some k ->
  db w !! k = Some old ->
  fault e CallFindById = None ->
  fault e CallDeleteOne = None ->
  fault e' CallFindById = None ->
  validationResult put_rules b = [] ->
  let w' := snd (delete_employee e id w) in
  db w' = delete k (db w)
  /\ fst (put_employee e' id b w') =
     Response 404 (PObject "message" "Employee not found")
  /\ db (snd (put_employee e' id b w')) = db w'
  /\ fst (delete_employee e' id w') =
     Response 404 (PObject "message" "Employee not found")
  /\ db (snd (delete_employee e' id w')) = db w'.
Proof.
  intros Hid Hold Hfind Hdel Hfind' Hv w'.
  assert (Hw' : w' = World (delete k (db w))
                       ((calls w ++ [CallFindById]) ++ [CallDeleteOne])).
  { subst w'. unfold delete_employee, try_catch, bind.
    rewrite (findById_resolves e id k w Hid Hfind), Hold.
    cbn [fmap option_fmap option_map].
    unfold deleteOne, bind, record_call, round_trip. simpl.
    rewrite Hdel. reflexivity. }
  rewrite Hw'. clear Hw' w'. cbn [db].
  set (w1 := World (delete k (db w)) _).
  assert (Hgone : db w1 !! k = None) by apply lookup_delete_eq.
  split; [reflexivity|].
  assert (Hput : put_employee e' id b w1 =
                 (Response 404 (PObject "message" "Employee not found"),
                  World (db w1) (calls w1 ++ [CallFindById]))).
  { rewrite put_employee_valid by exact Hv. unfold try_catch, bind.
    rewrite (findById_resolves e' id k w1 Hid Hfind'), Hgone. reflexivity. }
  assert (Hdel2 : delete_employee e' id w1 =
                 (Response 404 (PObject "message" "Employee not found"),
                  World (db w1) (calls w1 ++ [CallFindById]))).
  { unfold delete_employee, try_catch, bind.
    rewrite (findById_resolves e' id k w1 Hid Hfind'), Hgone. reflexivity. }
  rewrite Hput, Hdel2. repeat split.
Qed.

(** ** More on validation *)




Lemma violations_same_value (b b' : gmap string jsval) (c : chain) :
  prop b (path c) = prop b' (path c) -> violations b c = violations b' c.
Proof. unfold violations. intros ->. reflexivity. Qed.

Lemma violations_of_field (b : gmap string jsval) (c : chain) (k : string) :
  List.filter (fun x => String.eqb (err_path x) k) (violations b c) =
  if String.eqb (path c) k then violations b c else [].
Proof.
  unfold violations. induction (items c) as [|it l IH]; simpl.
  - destruct (String.eqb (path c) k); reflexivity.
  - rewrite List.filter_app, IH.
    destruct (item_fails it (prop b (path c))); simpl;
      destruct (String.eqb (path c) k); reflexivity.
Qed.

(** X13. Fields are judged independently: the violations reported for a
    field, and their order, depend on the value of that field alone. Two
    bodies that agree on a field get the same violations for it, whatever
    their other fields hold. *)
Theorem field_violations_independent (rules : list chain)
    (b b' : gmap string jsval) (k : string) :
  prop b k = prop b' k ->
  List.filter (fun x => String.eqb (err_path x) k) (validationResult rules b) =
  List.filter (fun x => String.eqb (err_path x) k) (validationResult rules b').
Proof.
  intros Hk. rewrite !validationResult_flat.
  induction rules as [|c rules IH]; [reflexivity|]. simpl.
  rewrite !List.filter_app, IH, !violations_of_field.
  destruct (String.eqb (path c) k) eqn:Hc; [|reflexivity].
  apply String.eqb_eq in Hc. subst k.
  rewrite (violations_same_value b b' c Hk). reflexivity.
Qed.


Lemma isEmpty_inv (s : string) : isEmpty s = true -> s = EmptyString.
Proof. destruct s; [reflexivity | discriminate]. Qed.

(** X15. For email and salary the required message never comes alone:
    whenever "Employee email is required" is reported, "Invalid email
    format" is reported for the same value, and whenever "Employee salary
    is required" is reported, so is "Salary must be a number". *)
Theorem required_implies_format (b : gmap string jsval) (v : jsval) :
  (In (VError v "Employee email is required" "emp_email")
      (validationResult post_rules b) ->
   In (VError v "Invalid email format" "emp_email")
      (validationResult post_rules b))
  /\ (In (VError v "Employee salary is required" "emp_salary")
         (validationResult post_rules b) ->
      In (VError v "Salary must be a number" "emp_salary")
         (validationResult post_rules b)).
Proof.
  split; intros H; apply in_validationResult in H as (c & it & Hc & Hit & Hf & Hx);
    simpl in Hc;
    repeat (destruct Hc as [<- | Hc]); try contradiction; simpl in Hit;
    repeat (destruct Hit as [<- | Hit]); try contradiction;
    simpl in Hx; try discriminate Hx;
    injection Hx as ->;
    unfold item_fails in Hf; simpl in Hf; apply isEmpty_inv in Hf;
    rewrite post_rules_unfold, Hf; simpl; in_apps.
Qed.

(** ** What a request body contributes *)

Lemma prop_lookup (b b' : gmap string jsval) (k : string) :
  b !! k = b' !! k -> prop b k = prop b' k.
Proof. unfold prop. intros ->. reflexivity. Qed.

(** X16. Only the seven fields of a body count: two bodies that agree on
    them are answered alike by create and by update and leave the same
    world behind. Extra properties, a client-chosen [_id] among them, are
    neither validated nor stored. *)
Theorem only_seven_fields_count (e : env) (id : string)
    (b b' : gmap string jsval) (w : world) :
  (forall k, In k required_fields -> b !! k = b' !! k) ->
  post_employees e b w = post_employees e b' w
  /\ put_employee e id b w = put_employee e id b' w.
Proof.
  intros Hsame.
  assert (Hp : forall k, In k required_fields -> prop b k = prop b' k).
  { intros k Hk. apply prop_lookup, Hsame, Hk. }
  assert (Hv : validationResult post_rules b = validationResult post_rules b').
  { rewrite !post_rules_unfold.
    rewrite !(Hp "emp_name"), !(Hp "emp_email"), !(Hp "emp_salary"),
      !(Hp "experience"), !(Hp "dept_code"), !(Hp "joining_date"),
      !(Hp "secrete_code") by (simpl; auto 10).
    reflexivity. }
  assert (Hb : body_paths b = body_paths b').
  { unfold body_paths. f_equal; apply Hp; simpl; auto 10. }
  split.
  - unfold post_employees. rewrite Hv, Hb. reflexivity.
  - unfold put_employee. change put_rules with post_rules. rewrite Hv.
    rewrite !(Hp "emp_name"), !(Hp "emp_email"), !(Hp "emp_salary"),
      !(Hp "experience"), !(Hp "dept_code"), !(Hp "joining_date"),
      !(Hp "secrete_code") by (simpl; auto 10).
    reflexivity.
Qed.

(** ** More on search *)

(** X17. For search terms free of regular-expression syntax, letter case
    in the term does not matter: two terms that differ only in case are
    answered identically, whatever the store does. *)
Theorem search_term_case (e : env) (t t' : string) (w : world) :
  literal_term t = true -> literal_term t' = true ->
  lower t = lower t' ->
  search_employees e t w = search_employees e t' w.
Proof.
  intros Ht Ht' Hl. unfold search_employees, try_catch, settle, bind.
  destruct (fault e CallFind) as [err|] eqn:Hf.
  - rewrite (find_regex_fault e t err w Hf), (find_regex_fault e t' err w Hf).
    reflexivity.
  - rewrite (find_regex_literal e t w Ht Hf), (find_regex_literal e t' w Ht' Hf).
    assert (Hm : forall d, name_matches t d = name_matches t' d).
    { intros d. unfold name_matches, name_contains. rewrite Hl. reflexivity. }
    rewrite (filter_ext _ _ Hm). reflexivity.
Qed.

(** X18. Every answer of the search route, for any term and any pattern
    engine, has one of three shapes: 200 with a non-empty array of distinct
    stored records whose names are strings; 404 with the message
    "No employees found"; or 500 with the error text under [error]. It
    never answers 200 with an empty array and never returns a record that
    is not in the collection. *)
Theorem search_answers (e : env) (name : string) (w : world) :
  match json (fst (search_employees e name w)) with
  | PDocs l =>
      status (fst (search_employees e name w)) = 200
      /\ l <> [] /\ List.NoDup l
      /\ forall d, In d l ->
           db w !! _id d = Some (doc d) /\ exists s, emp_name (doc d) = JStr s
  | PObject key text =>
      (status (fst (search_employees e name w)) = 404
       /\ key = "message" /\ text = "No employees found")
      \/ (status (fst (search_employees e name w)) = 500 /\ key = "error")
  | PErrors _ | PDoc _ => False
  end.
Proof.
  unfold search_employees, try_catch, settle, bind, Employee_find_regex, bind,
    record_call, round_trip. simpl.
  destruct (fault e CallFind); simpl; [right; auto|].
  destruct (regex_compile name) as [matches|]; simpl; [|right; auto].
  destruct (List.filter _ (documents (db w))) as [|d l] eqn:Hl; simpl;
    [left; auto|].
  split; [reflexivity|]. split; [discriminate|]. split.
  - rewrite <- Hl. apply List.NoDup_filter, NoDup_documents.
  - intros x Hx. change (In x (d :: l)) in Hx. rewrite <- Hl in Hx.
    apply filter_In in Hx as [Hd Hm].
    split; [apply in_documents, Hd|].
    destruct (emp_name (doc x)); try discriminate Hm. eauto.
Qed.

Lemma prefix_refl (t : string) : String.prefix t t = true.
Proof.
  induction t as [|c r IH]; [reflexivity|].
  rewrite prefix_cons, Ascii.eqb_refl. exact IH.
Qed.

Lemma name_contains_refl (s : string) : name_contains s s = true.
Proof.
  unfold name_contains. destruct (lower s) as [|c r] eqn:Hs.
  - reflexivity.
  - cbn [is_substring]. rewrite prefix_refl. reflexivity.
Qed.

(** X19. A record can be found by its own name right after it is
    created: when the name has no regular-expression syntax, searching for
    it answers 200 with a list that contains the new record. *)
Theorem create_then_search (e e' : env) (b : gmap string jsval) (s : string)
    (w : world) :
  validationResult post_rules b = [] ->
  prop b "emp_name" = JStr s ->
  literal_term s = true ->
  db w !! fresh_id e = None ->
  fault e CallSave = None ->
  fault e' CallFind = None ->
  let w' := snd (post_employees e b w) in
  exists l,
    fst (search_employees e' s w') = Response 200 (PDocs l)
    /\ In (Document (fresh_id e) (stored_paths b)) l.
Proof.
  intros Hv Hname Hlit Hfree Hsave Hfind w'. subst w'.
  rewrite (post_employees_created e b w Hv Hfree Hsave). cbn [snd].
  unfold search_employees, try_catch, settle, bind.
  rewrite (find_regex_literal e' s _ Hlit Hfind). cbn [db].
  set (l := List.filter _ _).
  assert (Hin : In (Document (fresh_id e) (stored_paths b)) l).
  { subst l. apply filter_In. split.
    - apply in_documents. cbn [_id doc]. apply lookup_insert_eq.
    - unfold name_matches. cbn [doc stored_paths emp_name].
      rewrite Hname. cbn [castString]. apply name_contains_refl. }
  exists l. destruct l as [|d l']; [destruct Hin|]. split; [reflexivity | exact Hin].
Qed.

(** ** Identifiers *)

Lemma to_lower_idem (c : ascii) : to_lower (to_lower c) = to_lower c.
Proof. destruct c as [[] [] [] [] [] [] [] []]; reflexivity. Qed.

Lemma is_hex_to_lower (c : ascii) : is_hex (to_lower c) = is_hex c.
Proof. destruct c as [[] [] [] [] [] [] [] []]; reflexivity. Qed.

Lemma lower_idem (s : string) : lower (lower s) = lower s.
Proof. induction s as [|c r IH]; simpl; [|rewrite to_lower_idem, IH]; reflexivity. Qed.

Lemma length_lower (s : string) : String.length (lower s) = String.length s.
Proof. induction s as [|c r IH]; simpl; [|rewrite IH]; reflexivity. Qed.

Lemma all_hex_lower (s : string) : all_hex (lower s) = all_hex s.
Proof. induction s as [|c r IH]; simpl; [|rewrite is_hex_to_lower, IH]; reflexivity. Qed.

Lemma castObjectId_canonical (id k : string) :
  castObjectId id = Some k -> castObjectId k = Some k.
Proof.
  unfold castObjectId.
  destruct ((String.length id =? 24)%nat && all_hex id) eqn:Hok; [|discriminate].
  intros [= <-]. rewrite length_lower, all_hex_lower, Hok, lower_idem.
  reflexivity.
Qed.

Lemma findById_same_cast (e : env) (id id' : string) (k : string) (w : world) :
  castObjectId id = Some k -> castObjectId id' = Some k ->
  Employee_findById e id w = Employee_findById e id' w.
Proof.
  intros H H'. unfold Employee_findById, bind, record_call. simpl.
  rewrite H, H'. reflexivity.
Qed.

(** X20. The identifier printed in a record addresses that record, and so
    does any spelling of it that differs only in the case of its
    hexadecimal letters: identifiers that cast to the same ObjectId are
    answered identically by the read, update and delete routes. *)
Theorem id_case_insensitive (e : env) (id id' k : string)
    (b : gmap string jsval) (w : world) :
  castObjectId id = Some k ->
  castObjectId k = Some k
  /\ (lower id' = lower id -> String.length id' = String.length id ->
      castObjectId id' = Some k)
  /\ (castObjectId id' = Some k ->
      get_employee e id' w = get_employee e id w
      /\ put_employee e id' b w = put_employee e id b w
      /\ delete_employee e id' w = delete_employee e id w).
Proof.
  intros Hid. split; [exact (castObjectId_canonical id k Hid)|]. split.
  - intros Hl Hlen. unfold castObjectId in *.
    rewrite Hlen, <- (all_hex_lower id'), Hl, all_hex_lower.
    exact Hid.
  - intros Hid'. pose proof (findById_same_cast e id' id k) as Hsame.
    split; [|split].
    + unfold get_employee, try_catch, bind. rewrite (Hsame w Hid' Hid).
      reflexivity.
    + unfold put_employee. destruct (validationResult put_rules b);
        [|reflexivity].
      unfold try_catch, bind. rewrite (Hsame w Hid' Hid). reflexivity.
    + unfold delete_employee, try_catch, bind. rewrite (Hsame w Hid' Hid).
      reflexivity.
Qed.

(** ** Numbers in a body *)

Lemma Number_of_int_Number_toString (n : Z) :
  Number_of_int (Number_toString n) = n.
Proof.
  destruct n as [|p|p].
  - reflexivity.
  - cbn [Number_toString].
    rewrite (Number_of_int_digits _ (N_toString_digits1 (Npos p))),
      digits_value_N_toString. reflexivity.
  - cbn [Number_toString Number_of_int]. simpl Ascii.eqb. cbv iota.
    rewrite digits_value_N_toString. reflexivity.
Qed.

(** X21. Numbers are judged and kept by their decimal text. For a number
    that JSON carries exactly: an experience given as that number is
    rejected exactly when it is negative, a salary given as that number is
    never rejected, and the text the number is stored as reads back as the
    same number. *)
Theorem numbers_in_body (b : gmap string jsval) (n : Z) :
  safe_integer n = true ->
  (prop b "experience" = JNum n ->
     (In (VError (JNum n) "Experience must be a non-negative integer" "experience")
         (validationResult post_rules b) <-> (n < 0)%Z))
  /\ (prop b "emp_salary" = JNum n ->
      forall x, In x (validationResult post_rules b) ->
                err_path x <> "emp_salary")
  /\ castString (JNum n) = JStr (Number_toString n)
  /\ Number_of_int (Number_toString n) = n.
Proof.
  intros _. split; [|split; [|split]].
  - intros Hn. split.
    + intros H. apply in_validationResult in H as (c & it & Hc & Hit & Hf & Hx).
      simpl in Hc.
      repeat (destruct Hc as [<- | Hc]); try contradiction; simpl in Hit;
        repeat (destruct Hit as [<- | Hit]); try contradiction;
        simpl in Hx; try discriminate Hx.
      unfold item_fails in Hf. simpl in Hf. rewrite Hn in Hf. simpl in Hf.
      destruct (Z.lt_ge_cases n 0) as [Hneg | Hpos]; [exact Hneg|].
      rewrite (isInt_min0_Number_toString n Hpos) in Hf. discriminate Hf.
    + intros Hneg. rewrite post_rules_unfold, Hn. simpl toString.
      rewrite (isInt_min0_negative n Hneg). simpl. in_apps.
  - intros Hn x H Hpath.
    apply in_validationResult in H as (c & it & Hc & Hit & Hf & ->).
    simpl in Hpath, Hc.
    repeat (destruct Hc as [<- | Hc]); try contradiction;
      simpl in Hpath; try discriminate Hpath; simpl in Hit;
      repeat (destruct Hit as [<- | Hit]); try contradiction;
      unfold item_fails in Hf; simpl in Hf; rewrite Hn in Hf; simpl in Hf.
    + rewrite isNumeric_Number_toString in Hf. discriminate Hf.
    + rewrite (isNumeric_nonempty _ (isNumeric_Number_toString n)) in Hf.
      discriminate Hf.
  - reflexivity.
  - apply Number_of_int_Number_toString.
Qed.

End Service.

(** * The service on the sample data *)




(** C3 fails as stated: the term [al.ce] is not contained in
    "Alice Smith", yet the search returns that record, because the term is
    used as a pattern in which [.] stands for any character. *)
Lemma search_dot_is_wildcard :
  fst (search_employees plain_only calm "al.ce" alice_world) =
    Response 200 (PDocs [Document alice_id alice_paths])
  /\ name_contains "al.ce" "Alice Smith" = false.
Proof. split; vm_compute; reflexivity. Qed.

Lemma search_literal_term_witness :
  fst (search_employees plain_only calm "alice" alice_world) =
    Response 200 (PDocs [Document alice_id alice_paths])
  /\ fst (search_employees plain_only calm "Smith" alice_world) =
    Response 200 (PDocs [Document alice_id alice_paths])
  /\ fst (search_employees plain_only calm "ice" alice_world) =
    Response 200 (PDocs [Document alice_id alice_paths])
  /\ fst (search_employees plain_only calm "bob" alice_world) =
    Response 404 (PObject "message" "No employees found").
Proof.
  pose proof (search_literal_term plain_only calm "alice" alice_world eq_refl eq_refl)
    as (H1 & _).
  pose proof (search_literal_term plain_only calm "Smith" alice_world eq_refl eq_refl)
    as (H2 & _).
  pose proof (search_literal_term plain_only calm "ice" alice_world eq_refl eq_refl)
    as (H3 & _).
  pose proof (search_literal_term plain_only calm "bob" alice_world eq_refl eq_refl)
    as (H4 & _).
  rewrite H1, H2, H3, H4. repeat split.
Defined.

Lemma update_overwrites_witness :
  fst (put_employee email_shape date_shape calm alice_id bob_body alice_world) =
    Response 200 (PDoc (Document alice_id bob_paths))
  /\ fst (put_employee email_shape date_shape calm alice_id bob_body empty_world) =
     Response 404 (PObject "message" "Employee not found").
Proof.
  pose proof (update_overwrites email_shape date_shape calm calm alice_id alice_id
                bob_body alice_world
                ltac:(vm_compute; reflexivity) ltac:(vm_compute; reflexivity)
                eq_refl eq_refl eq_refl) as [Hfound _].
  pose proof (update_overwrites email_shape date_shape calm calm alice_id alice_id
                bob_body empty_world
                ltac:(vm_compute; reflexivity) ltac:(vm_compute; reflexivity)
                eq_refl eq_refl eq_refl) as [_ Habsent].
  pose proof (Hfound alice_paths ltac:(vm_compute; reflexivity)) as (Hput & _).
  pose proof (Habsent ltac:(vm_compute; reflexivity)) as Hnone.
  rewrite Hput, Hnone. split; vm_compute; reflexivity.
Defined.

Lemma delete_then_get_witness :
  fst (delete_employee calm alice_id alice_world) =
    Response 200 (PObject "message" "Employee deleted")
  /\ fst (get_employee calm alice_id (snd (delete_employee calm alice_id alice_world))) =
     Response 404 (PObject "message" "Employee not found")
  /\ fst (delete_employee calm alice_id empty_world) =
     Response 404 (PObject "message" "Employee not found").
Proof.
  pose proof (delete_then_get calm calm alice_id alice_id alice_world
                ltac:(vm_compute; reflexivity) eq_refl eq_refl eq_refl)
    as [Hfound _].
  pose proof (delete_then_get calm calm alice_id alice_id empty_world
                ltac:(vm_compute; reflexivity) eq_refl eq_refl eq_refl)
    as [_ Habsent].
  pose proof (Hfound alice_paths ltac:(vm_compute; reflexivity))
    as (Hdel & _ & _ & Hget).
  pose proof (Habsent ltac:(vm_compute; reflexivity)) as Hnone.
  rewrite Hdel, Hnone. cbn [fst snd].
  split; [reflexivity | split; [exact Hget | reflexivity]].
Defined.

Lemma malformed_id_is_storage_error_witness :
  get_employee calm "xyz" alice_world =
    (Response 500 (PObject "message" (cast_error "xyz")),
     World (db alice_world) (calls alice_world ++ [CallFindById])).
Proof.
  pose proof (malformed_id_is_storage_error calm "xyz" alice_world) as [H _].
  exact (H ltac:(vm_compute; reflexivity)).
Defined.

(** C7 on a store that fails: when it cannot be reached, the list, read
    and delete routes answer 500 with the error text under [message]; when
    it refuses a write, the create and update routes answer 400 with the
    text under [message]; but the search route answers an unreachable
    store with 500 and the text under [error]. *)
Theorem search_storage_error_uses_error_key :
  fst (get_employees down alice_world) =
    Response 500 (PObject "message" "connect ECONNREFUSED 127.0.0.1:27017")
  /\ fst (get_employee down alice_id alice_world) =
    Response 500 (PObject "message" "connect ECONNREFUSED 127.0.0.1:27017")
  /\ fst (delete_employee down alice_id alice_world) =
    Response 500 (PObject "message" "connect ECONNREFUSED 127.0.0.1:27017")
  /\ fst (post_employees email_shape date_shape read_only alice_body empty_world) =
    Response 400 (PObject "message" "not primary")
  /\ fst (put_employee email_shape date_shape read_only alice_id bob_body alice_world) =
    Response 400 (PObject "message" "not primary")
  /\ fst (search_employees plain_only down "alice" alice_world) =
    Response 500 (PObject "error" "connect ECONNREFUSED 127.0.0.1:27017")
  /\ PObject "error" "connect ECONNREFUSED 127.0.0.1:27017" <>
     PObject "message" "connect ECONNREFUSED 127.0.0.1:27017".
Proof.
  repeat split; try (vm_compute; reflexivity).
  intros H. inversion H.
Qed.

Lemma validation_failure_atomic_witness :
  snd (post_employees email_shape date_shape calm ∅ alice_world) = alice_world
  /\ snd (put_employee email_shape date_shape calm alice_id ∅ alice_world) = alice_world.
Proof.
  destruct (validation_failure_atomic email_shape date_shape calm alice_id ∅
              alice_world
              (snd (post_employees email_shape date_shape calm ∅ alice_world))
              (validationResult (post_rules email_shape date_shape) ∅))
    as [Hpost _].
  destruct (validation_failure_atomic email_shape date_shape calm alice_id ∅
              alice_world
              (snd (put_employee email_shape date_shape calm alice_id ∅ alice_world))
              (validationResult (put_rules email_shape date_shape) ∅))
    as [_ Hput].
  split.
  - apply Hpost. vm_compute. reflexivity.
  - apply Hput. vm_compute. reflexivity.
Defined.


(** * The further properties on the sample data *)

Lemma reads_leave_collection_witness :
  db (snd (handle email_shape date_shape plain_only calm
             (SearchEmployees "alice") alice_world)) = db alice_world.
Proof.
  exact (proj1 (reads_leave_collection email_shape date_shape plain_only calm
                  (SearchEmployees "alice") alice_world eq_refl)).
Defined.

Lemma reads_do_not_disturb_witness :
  fst (handle email_shape date_shape plain_only calm (GetEmployee alice_id)
         (serve email_shape date_shape plain_only
            [ (calm, ListEmployees); (down, GetEmployee "xyz");
              (calm, SearchEmployees "ice") ] alice_world)) =
  fst (handle email_shape date_shape plain_only calm (GetEmployee alice_id)
         alice_world).
Proof.
  exact (reads_do_not_disturb email_shape date_shape plain_only
           [ (calm, ListEmployees); (down, GetEmployee "xyz");
             (calm, SearchEmployees "ice") ]
           calm (GetEmployee alice_id) alice_world eq_refl).
Defined.

Lemma list_returns_all_witness :
  get_employees calm alice_world =
    (Response 200 (PDocs (documents (db alice_world))),
     World (db alice_world) (calls alice_world ++ [CallFind])).
Proof. exact (proj1 (list_returns_all calm alice_world eq_refl)). Defined.

Lemma failures_leave_collection_witness :
  db (snd (handle email_shape date_shape plain_only read_only
             (UpdateEmployee alice_id bob_body) alice_world)) = db alice_world.
Proof.
  apply (failures_leave_collection email_shape date_shape plain_only read_only
           (UpdateEmployee alice_id bob_body) alice_world).
  vm_compute. apply le_n.
Defined.

Lemma writes_touch_one_record_witness :
  db (snd (post_employees email_shape date_shape calm bob_body alice_world))
    !! alice_id = Some alice_paths.
Proof.
  pose proof (writes_touch_one_record email_shape date_shape calm alice_world)
    as (Hpost & _).
  apply Hpost. vm_compute. reflexivity.
Defined.

Lemma malformed_id_on_writes_witness :
  put_employee email_shape date_shape calm "xyz" bob_body alice_world =
    (Response 400 (PObject "message" (cast_error "xyz")),
     World (db alice_world) (calls alice_world ++ [CallFindById])).
Proof.
  pose proof (malformed_id_on_writes email_shape date_shape calm "xyz" bob_body
                alice_world ltac:(vm_compute; reflexivity)) as (Hput & _).
  apply Hput. vm_compute. reflexivity.
Defined.

Lemma create_then_list_witness :
  length (documents (db (snd (post_employees email_shape date_shape calm
                                bob_body empty_world)))) =
  S (length (documents (db empty_world))).
Proof.
  pose proof (create_then_list email_shape date_shape calm calm bob_body
                empty_world
                ltac:(vm_compute; reflexivity) ltac:(vm_compute; reflexivity)
                eq_refl eq_refl) as (_ & _ & Hlen).
  exact Hlen.
Defined.

Lemma create_then_delete_witness :
  db (snd (delete_employee calm alice_id
             (snd (post_employees email_shape date_shape calm bob_body
                     empty_world)))) = db empty_world.
Proof.
  pose proof (create_then_delete email_shape date_shape calm calm bob_body
                empty_world
                ltac:(vm_compute; reflexivity) ltac:(vm_compute; reflexivity)
                ltac:(vm_compute; reflexivity) eq_refl eq_refl eq_refl)
    as (_ & Hdb).
  exact Hdb.
Defined.

Lemma update_idempotent_witness :
  fst (put_employee email_shape date_shape calm alice_id bob_body
         (snd (put_employee email_shape date_shape calm alice_id bob_body
                 alice_world))) =
  fst (put_employee email_shape date_shape calm alice_id bob_body alice_world).
Proof.
  pose proof (update_idempotent email_shape date_shape calm alice_id alice_id
                alice_paths bob_body alice_world
                ltac:(vm_compute; reflexivity) ltac:(vm_compute; reflexivity)
                ltac:(vm_compute; reflexivity) eq_refl eq_refl) as (Hsame & _).
  exact Hsame.
Defined.

Lemma delete_is_final_witness :
  fst (delete_employee calm alice_id
         (snd (delete_employee calm alice_id alice_world))) =
  Response 404 (PObject "message" "Employee not found").
Proof.
  pose proof (delete_is_final email_shape date_shape calm calm alice_id alice_id
                alice_paths bob_body alice_world
                ltac:(vm_compute; reflexivity) ltac:(vm_compute; reflexivity)
                eq_refl eq_refl eq_refl ltac:(vm_compute; reflexivity))
    as (_ & _ & _ & Hdel & _).
  exact Hdel.
Defined.


Lemma field_violations_independent_witness :
  List.filter (fun x => String.eqb (err_path x) "emp_email")
    (validationResult (post_rules email_shape date_shape) alice_body) =
  List.filter (fun x => String.eqb (err_path x) "emp_email")
    (validationResult (post_rules email_shape date_shape)
       (<["emp_name" := JNull]> alice_body)).
Proof.
  apply (field_violations_independent (post_rules email_shape date_shape)).
  vm_compute. reflexivity.
Defined.


Lemma required_implies_format_witness :
  In (VError JUndefined "Invalid email format" "emp_email")
     (validationResult (post_rules email_shape date_shape)
        (delete "emp_email" alice_body)).
Proof.
  pose proof (required_implies_format email_shape date_shape
                (delete "emp_email" alice_body) JUndefined) as (Hemail & _).
  apply Hemail. vm_compute. auto.
Defined.

Lemma only_seven_fields_count_witness :
  post_employees email_shape date_shape calm
    (<["_id" := JStr "mine"]> alice_body) empty_world =
  post_employees email_shape date_shape calm alice_body empty_world.
Proof.
  pose proof (only_seven_fields_count email_shape date_shape calm alice_id
                (<["_id" := JStr "mine"]> alice_body) alice_body empty_world)
    as H.
  apply H. intros k Hk. simpl in Hk.
  repeat (destruct Hk as [<- | Hk]); try contradiction; vm_compute; reflexivity.
Defined.

Lemma search_term_case_witness :
  search_employees plain_only calm "ALICE" alice_world =
  search_employees plain_only calm "alice" alice_world.
Proof.
  exact (search_term_case plain_only calm "ALICE" "alice" alice_world
           eq_refl eq_refl eq_refl).
Defined.

Lemma search_answers_witness :
  status (fst (search_employees plain_only calm "ice" alice_world)) = 200.
Proof.
  pose proof (search_answers plain_only calm "ice" alice_world) as H.
  vm_compute in H. vm_compute. exact (proj1 H).
Defined.

Lemma create_then_search_witness :
  exists l,
    fst (search_employees plain_only calm "Bob Stone"
           (snd (post_employees email_shape date_shape calm bob_body
                   empty_world))) = Response 200 (PDocs l)
    /\ In (Document alice_id bob_paths) l.
Proof.
  exact (create_then_search email_shape date_shape plain_only calm calm bob_body
           "Bob Stone" empty_world
           ltac:(vm_compute; reflexivity) ltac:(vm_compute; reflexivity)
           eq_refl ltac:(vm_compute; reflexivity) eq_refl eq_refl).
Defined.

Lemma id_case_insensitive_witness :
  get_employee calm "65A4F0C2E7B1A93D5C8F0A11" alice_world =
  get_employee calm alice_id alice_world.
Proof.
  pose proof (id_case_insensitive email_shape date_shape calm alice_id
                "65A4F0C2E7B1A93D5C8F0A11" alice_id bob_body alice_world
                ltac:(vm_compute; reflexivity)) as (_ & _ & Hsame).
  apply Hsame. vm_compute. reflexivity.
Defined.

Lemma numbers_in_body_witness :
  ~ In (VError (JNum 3) "Experience must be a non-negative integer" "experience")
       (validationResult (post_rules email_shape date_shape) alice_body)
  /\ Number_of_int (Number_toString 3) = 3%Z.
Proof.
  pose proof (numbers_in_body email_shape date_shape alice_body 3 eq_refl)
    as (Hexp & _ & _ & Hback).
  split; [|exact Hback].
  intros Hin. apply (Hexp ltac:(vm_compute; reflexivity)) in Hin. lia.
Defined.
